(** * Piwik PRO server-side tag template: field resolution and request body

    A shallow embedding of [src/template.js], the server-side JavaScript of
    the tag template, with the properties of the parameter resolver, the
    ecommerce converter and the response callback.

    JavaScript values are an inductive type.  Objects are association lists
    in insertion order, read with [get] and written with [set].  The APIs the
    template requires from the tag runtime ([getType], [makeString],
    [makeNumber], [JSON.stringify], [testRegex], [sha256Sync],
    [encodeUriComponent]) are executable functions.  A step of the script
    that raises a [TypeError] in JavaScript yields [None].

    Numbers are finite decimals or [NaN]; they print without an exponent,
    [makeNumber] reads plain decimal text, and [trim] removes the ASCII white
    space.  Strings are byte strings, so a character outside ASCII is the
    sequence of its UTF-8 bytes; a string with a lone surrogate, on which
    [encodeUriComponent] raises, has no such form and is outside the model.
    The keys of an object are kept in the order of their first insertion,
    where JavaScript lists the integer-like keys first: the properties below
    do not fix the order in which such keys are listed. *)

From Stdlib Require Import List String Ascii ZArith Lia Bool.
From Stdlib Require Import Numbers.DecimalString.
Import ListNotations.

Local Open Scope string_scope.
Local Open Scope Z_scope.

(** ** JavaScript values *)

(** A number is [NaN] or a finite decimal [m * 10^-e].  The template only
    tests numbers for truthiness, prints them and passes them on. *)
Inductive number : Type :=
| NaN
| Dec (m : Z) (e : nat).

Definition Int (z : Z) : number := Dec z 0.

#[local] Set Warnings "-register-all".

Inductive value : Type :=
| VUndefined
| VNull
| VBool (b : bool)
| VNum (n : number)
| VStr (s : string)
| VArr (items : list value)
| VObj (props : list (string * value)).

(** An object: its own properties in the order they were first written, the
    order [Object.keys] lists string keys in. *)
Definition obj : Type := list (string * value).

Module Js.

(** *** Objects *)

(** [o[k]]: the value of property [k], [undefined] when [o] has none. *)
Fixpoint get (k : string) (o : obj) : value :=
  match o with
  | [] => VUndefined
  | (k', v) :: rest => if String.eqb k k' then v else get k rest
  end.

(** [o[k] = v]: overwrite in place when [k] exists, append otherwise. *)
Fixpoint set (k : string) (v : value) (o : obj) : obj :=
  match o with
  | [] => [(k, v)]
  | (k', v') :: rest =>
      if String.eqb k k' then (k', v) :: rest else (k', v') :: set k v rest
  end.

(** [Object.keys(o)]. *)
Definition keys (o : obj) : list string := map fst o.

Definition has (k : string) (o : obj) : bool :=
  existsb (String.eqb k) (keys o).

(** Property read [v.k] on an arbitrary value.  Arrays and strings carry
    [length]; the other names the template reads exist on plain objects only. *)
Definition prop (v : value) (k : string) : value :=
  match v with
  | VObj o => get k o
  | VArr l => if String.eqb k "length" then VNum (Int (Z.of_nat (List.length l))) else VUndefined
  | VStr s => if String.eqb k "length" then VNum (Int (Z.of_nat (String.length s))) else VUndefined
  | _ => VUndefined
  end.

(** *** Truthiness and the short-circuit operators *)

Definition number_is_zero (n : number) : bool :=
  match n with
  | NaN => true
  | Dec m _ => m =? 0
  end.

(** ToBoolean: [undefined], [null], [false], [0], [NaN] and the empty
    string are falsy, every other value is truthy. *)
Definition truthy (v : value) : bool :=
  match v with
  | VUndefined | VNull => false
  | VBool b => b
  | VNum n => negb (number_is_zero n)
  | VStr s => negb (String.eqb s EmptyString)
  | VArr _ | VObj _ => true
  end.

(** [a || b]. *)
Definition or_else (a b : value) : value := if truthy a then a else b.

(** [a && b]. *)
Definition and_then (a b : value) : value := if truthy a then b else a.

(** [v == null]: true of [null] and [undefined] only. *)
Definition nullish (v : value) : bool :=
  match v with
  | VUndefined | VNull => true
  | _ => false
  end.

(** [v === 'lit']. *)
Definition is_str (v : value) (lit : string) : bool :=
  match v with
  | VStr s => String.eqb s lit
  | _ => false
  end.

(** *** Strings *)

(** [s.slice(0, n)]. *)
Definition take (n : nat) (s : string) : string := substring 0 n s.

(** [s.slice(n)]. *)
Fixpoint drop (n : nat) (s : string) : string :=
  match n, s with
  | O, _ => s
  | S n', String _ s' => drop n' s'
  | S _, EmptyString => EmptyString
  end.

(** [s.replace(pat, rep)] with a string pattern: the first occurrence only. *)
Fixpoint replace_first (pat rep s : string) : string :=
  if String.prefix pat s then rep ++ drop (String.length pat) s
  else match s with
       | EmptyString => EmptyString
       | String c s' => String c (replace_first pat rep s')
       end.

(** [s.split(c)] for a one-character separator. *)
Fixpoint split_on (c : ascii) (s : string) : list string :=
  match s with
  | EmptyString => [EmptyString]
  | String a s' =>
      if Ascii.eqb a c then EmptyString :: split_on c s'
      else match split_on c s' with
           | [] => [String a EmptyString]
           | w :: ws => String a w :: ws
           end
  end.

Definition is_space (a : ascii) : bool :=
  let n := nat_of_ascii a in
  (Nat.eqb n 32 || (Nat.leb 9 n && Nat.leb n 13))%bool.

Fixpoint trim_start (s : string) : string :=
  match s with
  | String a s' => if is_space a then trim_start s' else s
  | EmptyString => EmptyString
  end.

Fixpoint trim_end (s : string) : string :=
  match s with
  | EmptyString => EmptyString
  | String a s' =>
      match trim_end s' with
      | EmptyString => if is_space a then EmptyString else String a EmptyString
      | t => String a t
      end
  end.

(** [s.trim()] over the ASCII white space characters. *)
Definition trim (s : string) : string := trim_end (trim_start s).

(** [parts.join(sep)]. *)
Fixpoint join (sep : string) (parts : list string) : string :=
  match parts with
  | [] => EmptyString
  | [p] => p
  | p :: rest => p ++ sep ++ join sep rest
  end.

(** *** Numbers as text *)

Fixpoint strip_zeros (m : Z) (e : nat) : Z * nat :=
  match e with
  | O => (m, O)
  | S e' => if m mod 10 =? 0 then strip_zeros (m / 10) e' else (m, e)
  end.

Fixpoint zeros (n : nat) : string :=
  match n with
  | O => EmptyString
  | S n' => String "0" (zeros n')
  end.

Definition Z_to_string (z : Z) : string := NilZero.string_of_int (Z.to_int z).

(** Number::toString for decimals written without an exponent. *)
Definition number_to_string (n : number) : string :=
  match n with
  | NaN => "NaN"
  | Dec m e =>
      let '(m', e') := strip_zeros m e in
      match e' with
      | O => Z_to_string m'
      | S _ =>
          let ds := Z_to_string (Z.abs m') in
          let ds := zeros (S e' - String.length ds) ++ ds in
          let k := (String.length ds - e')%nat in
          (if m' <? 0 then "-" else EmptyString) ++ take k ds ++ "." ++ drop k ds
      end
  end.

(** ToString, as [String(v)], string concatenation and property keys use it. *)
Fixpoint to_string (v : value) : string :=
  match v with
  | VUndefined => "undefined"
  | VNull => "null"
  | VBool true => "true"
  | VBool false => "false"
  | VNum n => number_to_string n
  | VStr s => s
  | VArr l => join "," (map (fun x => if nullish x then EmptyString else to_string x) l)
  | VObj _ => "[object Object]"
  end.

Definition digits_to_Z (s : string) : option Z :=
  option_map Z.of_uint (NilEmpty.uint_of_string s).

Definition parse_unsigned (s : string) : number :=
  match split_on "." s with
  | [i] =>
      match i, digits_to_Z i with
      | String _ _, Some z => Dec z 0
      | _, _ => NaN
      end
  | [i; f] =>
      match (String.length i + String.length f)%nat, digits_to_Z i, digits_to_Z f with
      | S _, Some zi, Some zf =>
          Dec (zi * 10 ^ Z.of_nat (String.length f) + zf) (String.length f)
      | _, _, _ => NaN
      end
  | _ => NaN
  end.

Definition negate (n : number) : number :=
  match n with
  | NaN => NaN
  | Dec m e => Dec (- m) e
  end.

(** StringToNumber for plain decimal literals; the empty string is [0]. *)
Definition string_to_number (s : string) : number :=
  match trim s with
  | EmptyString => Dec 0 0
  | String "-" t => negate (parse_unsigned t)
  | String "+" t => parse_unsigned t
  | t => parse_unsigned t
  end.

End Js.

Import Js.

(** ** APIs of the tag runtime *)

Module Host.

(** [getType(v)]. *)
Definition getType (v : value) : string :=
  match v with
  | VUndefined => "undefined"
  | VNull => "null"
  | VBool _ => "boolean"
  | VNum _ => "number"
  | VStr _ => "string"
  | VArr _ => "array"
  | VObj _ => "object"
  end.

(** [makeString(v)]: the value as a string. *)
Definition makeString (v : value) : string := to_string v.

(** [makeNumber(v)]. *)
Definition makeNumber (v : value) : number :=
  match v with
  | VUndefined => NaN
  | VNull => Dec 0 0
  | VBool true => Dec 1 0
  | VBool false => Dec 0 0
  | VNum n => n
  | VStr s => string_to_number s
  | VArr [] => Dec 0 0
  | VArr [x] => string_to_number (if nullish x then EmptyString else makeString x)
  | VArr _ => NaN
  | VObj _ => NaN
  end.

Definition hex_digit (n : nat) : ascii :=
  ascii_of_nat (if Nat.ltb n 10 then 48 + n else 87 + n).

Definition quote_char : ascii := ascii_of_nat 34.
Definition backslash : ascii := ascii_of_nat 92.

Definition escape_char (a : ascii) : string :=
  let n := nat_of_ascii a in
  if Nat.eqb n 34 then String backslash (String quote_char EmptyString)
  else if Nat.eqb n 92 then String backslash (String backslash EmptyString)
  else if Nat.eqb n 8 then String backslash "b"
  else if Nat.eqb n 9 then String backslash "t"
  else if Nat.eqb n 10 then String backslash "n"
  else if Nat.eqb n 12 then String backslash "f"
  else if Nat.eqb n 13 then String backslash "r"
  else if Nat.ltb n 32 then
    String backslash ("u00" ++ String (hex_digit (n / 16)) (String (hex_digit (n mod 16)) EmptyString))
  else String a EmptyString.

Fixpoint escape (s : string) : string :=
  match s with
  | EmptyString => EmptyString
  | String a s' => escape_char a ++ escape s'
  end.

(** A JSON string literal. *)
Definition quote (s : string) : string :=
  String quote_char (escape s ++ String quote_char EmptyString).

Definition number_to_json (n : number) : string :=
  match n with
  | NaN => "null"
  | _ => number_to_string n
  end.

(** [JSON.stringify(v)] as text, [None] where JavaScript gives [undefined].
    Inside an array an [undefined] element prints as [null]; inside an object a
    property whose value is [undefined] is left out. *)
Fixpoint stringify (v : value) : option string :=
  match v with
  | VUndefined => None
  | VNull => Some "null"
  | VBool true => Some "true"
  | VBool false => Some "false"
  | VNum n => Some (number_to_json n)
  | VStr s => Some (quote s)
  | VArr l =>
      Some ("[" ++ join "," (map (fun x => match stringify x with
                                          | Some t => t
                                          | None => "null"
                                          end) l) ++ "]")
  | VObj o =>
      Some ("{" ++ join "," (flat_map (fun kv => match stringify (snd kv) with
                                                 | Some t => [quote (fst kv) ++ ":" ++ t]
                                                 | None => []
                                                 end) o) ++ "}")
  end.

(** [JSON.stringify(v)] as a JavaScript value. *)
Definition JSON_stringify (v : value) : value :=
  match stringify v with
  | Some t => VStr t
  | None => VUndefined
  end.

Definition is_hex (a : ascii) : bool :=
  let n := nat_of_ascii a in
  ((Nat.leb 48 n && Nat.leb n 57) || (Nat.leb 65 n && Nat.leb n 70)
   || (Nat.leb 97 n && Nat.leb n 102))%bool.

Fixpoint all_chars (p : ascii -> bool) (s : string) : bool :=
  match s with
  | EmptyString => true
  | String a s' => (p a && all_chars p s')%bool
  end.

(** [testRegex(createRegex('^[0-9a-fA-F]{16}$'), v)]: only a string can match. *)
Definition testRegex_hex16 (v : value) : bool :=
  match v with
  | VStr s => (Nat.eqb (String.length s) 16 && all_chars is_hex s)%bool
  | _ => false
  end.

End Host.

(** ** SHA-256 (FIPS 180-4), the digest behind [sha256Sync] *)

Module Sha256.

Definition mask32 : Z := 0xFFFFFFFF.

Definition add32 (x y : Z) : Z := (x + y) mod 2 ^ 32.

Definition rotr (n x : Z) : Z :=
  Z.lor (Z.shiftr x n) (Z.land (Z.shiftl x (32 - n)) mask32).

Definition Ch (x y z : Z) : Z :=
  Z.lxor (Z.land x y) (Z.land (Z.lxor x mask32) z).

Definition Maj (x y z : Z) : Z :=
  Z.lxor (Z.lxor (Z.land x y) (Z.land x z)) (Z.land y z).

Definition Sigma0 (x : Z) : Z := Z.lxor (Z.lxor (rotr 2 x) (rotr 13 x)) (rotr 22 x).
Definition Sigma1 (x : Z) : Z := Z.lxor (Z.lxor (rotr 6 x) (rotr 11 x)) (rotr 25 x).
Definition sigma0 (x : Z) : Z := Z.lxor (Z.lxor (rotr 7 x) (rotr 18 x)) (Z.shiftr x 3).
Definition sigma1 (x : Z) : Z := Z.lxor (Z.lxor (rotr 17 x) (rotr 19 x)) (Z.shiftr x 10).

(** The first 64 primes. *)
Definition is_prime (n : Z) : bool :=
  forallb (fun d => ((n <? d * d) || negb (n mod d =? 0))%bool) (map Z.of_nat (seq 2 17)).

Definition primes : list Z := filter is_prime (map Z.of_nat (seq 2 310)).

(** The integer cube root, found bit by bit from bit [n - 1] down. *)
Fixpoint cbrt_bits (n : nat) (x r : Z) : Z :=
  match n with
  | O => r
  | S n' =>
      let c := r + 2 ^ Z.of_nat n' in
      if c * c * c <=? x then cbrt_bits n' x c else cbrt_bits n' x r
  end.

(** The round constants: the first 32 bits of the fractional parts of the
    cube roots of the first 64 primes. *)
Definition K : list Z :=
  Eval vm_compute in map (fun p => cbrt_bits 40 (p * 2 ^ 96) 0 mod 2 ^ 32) primes.

(** The big-endian bytes of the low [8 * n] bits of [x]. *)
Fixpoint be_bytes (n : nat) (x : Z) : list Z :=
  match n with
  | O => []
  | S n' => Z.land (Z.shiftr x (8 * Z.of_nat n')) 0xFF :: be_bytes n' x
  end.

(** Message padding: a [1] bit, zeros, then the bit length on 64 bits. *)
Definition pad (msg : list Z) : list Z :=
  let len := Z.of_nat (List.length msg) in
  msg ++ [0x80] ++ repeat 0 (Z.to_nat ((55 - len) mod 64)) ++ be_bytes 8 (8 * len).

Fixpoint be_words (n : nat) (bytes : list Z) : list Z :=
  match n with
  | O => []
  | S n' =>
      match bytes with
      | a :: b :: c :: d :: rest =>
          (Z.shiftl a 24 + Z.shiftl b 16 + Z.shiftl c 8 + d) :: be_words n' rest
      | _ => []
      end
  end.

(** The message schedule: [n] more words after those of [w]. *)
Fixpoint schedule (n : nat) (w : list Z) : list Z :=
  match n with
  | O => w
  | S n' =>
      let t := List.length w in
      let x := add32 (add32 (sigma1 (nth (t - 2) w 0)) (nth (t - 7) w 0))
                     (add32 (sigma0 (nth (t - 15) w 0)) (nth (t - 16) w 0)) in
      schedule n' (w ++ [x])
  end.

Record regs : Type := Regs { ra : Z; rb : Z; rc : Z; rd : Z; re : Z; rf : Z; rg : Z; rh : Z }.

Definition round (s : regs) (kw : Z * Z) : regs :=
  let t1 := add32 (add32 (add32 (rh s) (Sigma1 (re s))) (Ch (re s) (rf s) (rg s)))
                  (add32 (fst kw) (snd kw)) in
  let t2 := add32 (Sigma0 (ra s)) (Maj (ra s) (rb s) (rc s)) in
  Regs (add32 t1 t2) (ra s) (rb s) (rc s) (add32 (rd s) t1) (re s) (rf s) (rg s).

Definition compress (h : regs) (block : list Z) : regs :=
  let w := schedule 48 (be_words 16 block) in
  let s := fold_left round (combine K w) h in
  Regs (add32 (ra h) (ra s)) (add32 (rb h) (rb s)) (add32 (rc h) (rc s)) (add32 (rd h) (rd s))
       (add32 (re h) (re s)) (add32 (rf h) (rf s)) (add32 (rg h) (rg s)) (add32 (rh h) (rh s)).

Fixpoint blocks (n : nat) (h : regs) (bytes : list Z) : regs :=
  match n with
  | O => h
  | S n' => blocks n' (compress h (firstn 64 bytes)) (skipn 64 bytes)
  end.

(** The initial hash value: the first 32 bits of the fractional parts of the
    square roots of the first 8 primes. *)
Definition init_words : list Z :=
  Eval vm_compute in map (fun p => Z.sqrt (p * 2 ^ 64) mod 2 ^ 32) (firstn 8 primes).

Definition init : regs :=
  match init_words with
  | [a; b; c; d; e; f; g; h] => Regs a b c d e f g h
  | _ => Regs 0 0 0 0 0 0 0 0
  end.

Definition digest (msg : list Z) : list Z :=
  let p := pad msg in
  let h := blocks (List.length p / 64) init p in
  flat_map (be_bytes 4) [ra h; rb h; rc h; rd h; re h; rf h; rg h; rh h].

Definition hex_of_byte (b : Z) : string :=
  String (Host.hex_digit (Z.to_nat (b / 16))) (String (Host.hex_digit (Z.to_nat (b mod 16))) EmptyString).

Definition bytes_of_string (s : string) : list Z :=
  map (fun a => Z.of_nat (nat_of_ascii a)) (list_ascii_of_string s).

(** The digest of the bytes of [s], in lower-case hexadecimal. *)
Definition hex (s : string) : string :=
  String.concat EmptyString (map hex_of_byte (digest (bytes_of_string s))).

End Sha256.

(** ** The template, [src/template.js] *)

Module Template.

Import Host.

(** A step of the script either yields a value or raises a [TypeError]
    ([None]), which aborts the invocation. *)
Definition bind {A B : Type} (m : option A) (f : A -> option B) : option B :=
  match m with
  | Some a => f a
  | None => None
  end.

Notation "x <- m ;; k" := (bind m (fun x => k))
  (at level 61, m at next level, right associativity).

(** [v.k] where reading a property of [null] or [undefined] raises. *)
Definition member (v : value) (k : string) : option value :=
  if nullish v then None else Some (prop v k).

Fixpoint foldM {A S : Type} (step : S -> A -> option S) (xs : list A) (s : S) : option S :=
  match xs with
  | [] => Some s
  | x :: rest => s' <- step s x ;; foldM step rest s'
  end.

(** [arr.forEach(...)] and [arr.reduce(..., init)]: only arrays have them. *)
Definition forEach {S : Type} (arr : value) (step : S -> value -> option S) (s : S) : option S :=
  match arr with
  | VArr items => foldM step items s
  | _ => None
  end.

(** [sha256Sync(input, {outputEncoding: 'hex'})]: the API takes a string. *)
Definition sha256Sync (input : value) : option string :=
  match input with
  | VStr s => Some (Sha256.hex s)
  | _ => None
  end.

(** *** Template constants *)

Definition LIBRARY_NAME : string := "sgtm".
Definition LIBRARY_VERSION : string := "1.0.3".

Definition ENDPOINT (data : obj) : string :=
  "https://" ++ to_string (get "instanceName" data) ++ ".piwik.pro/ppms.php".

Definition HEADERS : obj :=
  [("content-type", VStr "application/x-www-form-urlencoded")].

Definition isLoggingEnabled (data : obj) (containerVersion : value) : bool :=
  let isDebug :=
    truthy (and_then containerVersion
              (or_else (prop containerVersion "debugMode") (prop containerVersion "previewMode"))) in
  if negb (truthy (get "logType" data)) then isDebug
  else if is_str (get "logType" data) "no" then false
  else if is_str (get "logType" data) "debug" then isDebug
  else is_str (get "logType" data) "always".

Definition LOGGING_ENABLED (data : obj) (containerVersion : value) : bool :=
  isLoggingEnabled data containerVersion.

(** [traceHeader] is what [getRequestHeader('trace-id')] returns. *)
Definition TRACE_ID (data : obj) (containerVersion traceHeader : value) : value :=
  if LOGGING_ENABLED data containerVersion then traceHeader else VUndefined.

(** *** Helpers *)

(** The client id as it is when it already is a 16 character hexadecimal
    hash, else the first 16 characters of its hash. *)
Definition getClientIdHash (eventData : obj) : option value :=
  let clientId := get "client_id" eventData in
  if negb (truthy clientId) then Some VUndefined
  else if testRegex_hex16 clientId then Some clientId
  else h <- sha256Sync clientId ;; Some (VStr (substring 0 16 h)).

(** An array of trimmed strings; [split] exists on strings only. *)
Definition stringToArrayAndTrim (str : value) : option value :=
  match str with
  | VStr s => Some (VArr (map (fun item => VStr (trim item)) (split_on "," s)))
  | _ => None
  end.

(** The object without its top-level [undefined] and [null] properties. *)
Definition cleanObject (o : obj) : obj :=
  fold_left (fun target k => if negb (nullish (get k o)) then set k (get k o) target else target)
            (keys o) [].

Definition elements (v : value) : list value :=
  match v with
  | VArr l => l
  | _ => []
  end.

Definition object_keys (v : value) : list string :=
  match v with
  | VObj o => keys o
  | _ => []
  end.

(** The Piwik PRO product array of one GA4 item. *)
Definition convertItem (item : value) : value :=
  VArr [ VStr (makeString (prop item "item_id"));
         prop item "item_name";
         VArr (filter truthy [ prop item "item_category"; prop item "item_category2";
                               prop item "item_category3"; prop item "item_category4";
                               prop item "item_category5" ]);
         prop item "price";
         prop item "quantity";
         prop item "item_brand";
         prop item "item_variant";
         VObj (fold_left (fun acc cur =>
                            if String.eqb (take 9 cur) "dimension"
                            then set (drop 9 cur) (prop item cur) acc else acc)
                         (object_keys item) []) ].

(** A GA4 ecommerce array in Piwik PRO format. *)
Definition convertEcommerce (itemArr : value) : value :=
  if negb (String.eqb (getType itemArr) "array") then VUndefined
  else VArr (map convertItem
               (filter (fun item => String.eqb (getType item) "object") (elements itemArr))).

(** *** The map of all parameters defined in the UI *)

Definition uiParamMap_literal (data eventData : obj) : option obj :=
  search_cats <- (if truthy (get "search_cats" data)
                  then stringToArrayAndTrim (get "search_cats" data)
                  else Some (get "x-pp-search_cats" eventData)) ;;
  _id <- (if truthy (get "_id" data) then Some (get "_id" data)
          else getClientIdHash eventData) ;;
  Some
    [ ("idsite", get "websiteId" data);
      ("rec", VNum (Int 1));
      ("uia", if is_str (get "anonymous" data) "uia" then VNum (Int 1)
              else or_else (get "x-pp-uia" eventData) (VNum (Int 0)));
      ("rmip", if is_str (get "anonymous" data) "rmip" then VNum (Int 1)
               else or_else (get "x-pp-rmip" eventData) (VNum (Int 0)));
      ("action_name",
        or_else (or_else (get "action_name" data) (get "x-pp-action_name" eventData))
                (if (is_str (get "eventType" data) "pageview"
                     || is_str (get "event_name" eventData) "page_view")%bool
                 then get "page_title" eventData else VUndefined));
      ("url", or_else (get "url" data) (get "page_location" eventData));
      ("urlref", or_else (get "urlref" data) (get "page_referrer" eventData));
      ("search", or_else (get "search" data) (get "x-pp-search" eventData));
      ("search_cats", JSON_stringify search_cats);
      ("search_count", if truthy (get "search_count" data)
                       then VNum (makeNumber (get "search_count" data))
                       else get "x-pp-search_count" eventData);
      ("link", or_else (get "link" data) (get "x-pp-link" eventData));
      ("download", or_else (get "download" data) (get "x-pp-download" eventData));
      ("e_c", or_else (get "e_c" data) (get "x-pp-e_c" eventData));
      ("e_a", or_else (get "e_a" data) (get "x-pp-e_a" eventData));
      ("e_n", or_else (get "e_n" data) (get "x-pp-e_n" eventData));
      ("e_v", or_else (get "e_v" data) (get "x-pp-e_v" eventData));
      ("_id", _id);
      ("uid", or_else (get "uid" data) (get "user_id" eventData));
      ("cip", or_else (get "cip" data) (get "ip_override" eventData));
      ("e_t", or_else (get "e_t" data) (get "x-pp-e_t" eventData));
      ("ec_id", or_else (or_else (get "ec_id" data) (get "x-pp-ec_id" eventData))
                        (get "transaction_id" eventData));
      ("revenue", or_else (get "revenue" data) (get "value" eventData));
      ("ec_st", or_else (get "ec_st" data) (get "x-pp-ec_st" eventData));
      ("ec_sh", or_else (get "ec_sh" data) (get "x-pp-ec_sh" eventData));
      ("ec_tx", or_else (get "ec_tx" data) (get "x-pp-ec_tx" eventData));
      ("ec_dt", or_else (get "ec_dt" data) (get "x-pp-ec_dt" eventData));
      ("ec_products",
        or_else (or_else (JSON_stringify (convertEcommerce (get "ec_products" data)))
                         (JSON_stringify (get "x-pp-ec_products" eventData)))
                (JSON_stringify (convertEcommerce (get "items" eventData)))) ].

(** The common event data params. *)
Definition commonParams (eventData ui : obj) : obj :=
  set "res" (get "screen_resolution" eventData)
    (set "lang" (get "language" eventData)
       (set "ua" (get "user_agent" eventData) ui)).

(** The custom dimensions of the configuration. *)
Definition customDims (data ui : obj) : option obj :=
  forEach (or_else (get "custom_dims" data) (VArr []))
          (fun ui dim =>
             index <- member dim "index" ;;
             v <- member dim "value" ;;
             Some (set ("dimension" ++ to_string index) v ui))
          ui.

(** The value of [cvar] and [_cvar]: the configured table as an object from
    id to [[name, value]] when it has rows, else the inherited value. *)
Definition cvarParam (cvars inherited : value) : option value :=
  if truthy (and_then cvars (prop cvars "length")) then
    acc <- forEach cvars
             (fun acc cur =>
                id <- member cur "id" ;;
                name <- member cur "name" ;;
                v <- member cur "value" ;;
                Some (set (to_string id) (VArr [name; v]) acc))
             [] ;;
    Some (JSON_stringify (VObj acc))
  else Some (JSON_stringify inherited).

(** The Additional Parameters table overwrites any key of the map. *)
Definition additionalParameters (data ui : obj) : option obj :=
  forEach (or_else (get "additionalParameters" data) (VArr []))
          (fun ui param =>
             key <- member param "key" ;;
             v <- member param "value" ;;
             Some (set (to_string key) v ui))
          ui.

Definition uiParamMap (data eventData : obj) : option obj :=
  ui <- uiParamMap_literal data eventData ;;
  ui <- customDims data (commonParams eventData ui) ;;
  cvar <- cvarParam (get "cvars_event" data) (get "x-pp-cvar" eventData) ;;
  _cvar <- cvarParam (get "cvars_session" data) (get "x-pp-_cvar" eventData) ;;
  additionalParameters data (set "_cvar" _cvar (set "cvar" cvar ui)).

(** *** The request body *)

(** All Piwik-specific parameters of the event data. *)
Definition passthrough (eventData : obj) : obj :=
  fold_left (fun requestBody key => set (replace_first "x-pp-" EmptyString key) (get key eventData) requestBody)
            (filter (fun key => String.eqb (take 5 key) "x-pp-") (keys eventData))
            [].

(** The base request body overwritten with the values of the map. *)
Definition overwrite (requestBody ui : obj) : obj :=
  fold_left (fun requestBody key => set key (get key ui) requestBody) (keys ui) requestBody.

Definition buildRequestBody (eventData ui : obj) : obj :=
  cleanObject
    (set "ts_v" (VStr LIBRARY_VERSION)
       (set "ts_n" (VStr LIBRARY_NAME)
          (overwrite (passthrough eventData) ui))).

(** The parameter set of one invocation. *)
Definition requestBody (data eventData : obj) : option obj :=
  ui <- uiParamMap data eventData ;;
  Some (buildRequestBody eventData ui).

(** *** Transport and the response callback *)

Definition upper_hex_digit (n : nat) : ascii :=
  ascii_of_nat (if Nat.ltb n 10 then 48 + n else 55 + n).

Definition is_unreserved (a : ascii) : bool :=
  let n := nat_of_ascii a in
  ((Nat.leb 48 n && Nat.leb n 57) || (Nat.leb 65 n && Nat.leb n 90)
   || (Nat.leb 97 n && Nat.leb n 122)
   || existsb (Nat.eqb n) [45; 95; 46; 33; 126; 42; 39; 40; 41]%nat)%bool.

Fixpoint percent_encode (s : string) : string :=
  match s with
  | EmptyString => EmptyString
  | String a s' =>
      if is_unreserved a then String a (percent_encode s')
      else let n := nat_of_ascii a in
           String "%" (String (upper_hex_digit (n / 16))
                         (String (upper_hex_digit (n mod 16)) (percent_encode s')))
  end.

(** [encodeUriComponent(v)] over the bytes of the value as a string.  Every
    byte string has an encoding; the [URIError] of the API on a lone
    surrogate is not modelled. *)
Definition encodeUriComponent (v : value) : string := percent_encode (to_string v).

(** The query string: [key=value&] per key, the last separator cut off. *)
Definition postBody (requestBody : obj) : string :=
  let joined := fold_left (fun acc cur => acc ++ cur ++ "=" ++ encodeUriComponent (get cur requestBody) ++ "&")
                          (keys requestBody) EmptyString in
  take (String.length joined - 1) joined.

Record response : Type := Response {
  statusCode : Z;
  headers : obj;
  body : value
}.

(** What the tag asks of the host, in order. *)
Inductive action : Type :=
| LogToConsole (message : value)
| SendHttpRequest (url : string) (options : obj) (body : string)
| SetResponseStatus (code : Z)
| SetResponseHeader (name : string) (v : value)
| GtmOnSuccess
| GtmOnFailure.

Definition is_send (a : action) : bool :=
  match a with
  | SendHttpRequest _ _ _ => true
  | _ => false
  end.

Definition eventName (requestBody : obj) : value :=
  or_else (get "action_name" requestBody) (VStr "page_view").

Definition logRequest (data : obj) (traceId : value) (requestBody : obj) : action :=
  LogToConsole
    (JSON_stringify
       (VObj [ ("Name", VStr "PiwikPro");
               ("Type", VStr "Request");
               ("TraceId", traceId);
               ("EventName", eventName requestBody);
               ("RequestMethod", VStr "POST");
               ("RequestUrl", VStr (ENDPOINT data));
               ("RequestHeaders", VObj HEADERS);
               ("RequestBody", VObj requestBody) ])).

Definition logResponse (traceId : value) (requestBody : obj) (r : response) : action :=
  LogToConsole
    (JSON_stringify
       (VObj [ ("Name", VStr "PiwikPro");
               ("Type", VStr "Response");
               ("TraceId", traceId);
               ("EventName", eventName requestBody);
               ("ResponseStatusCode", VNum (Int (statusCode r)));
               ("ResponseHeaders", VObj (headers r));
               ("ResponseBody", body r) ])).

(** The callback of [sendHttpRequest(...).then]. *)
Definition onResponse (logging : bool) (traceId : value) (requestBody : obj) (r : response)
  : list action :=
  ((if logging then [logResponse traceId requestBody r] else [])
   ++ [ SetResponseStatus (statusCode r);
        SetResponseHeader "cache-control" (get "cache-control" (headers r));
        if statusCode r <? 400 then GtmOnSuccess else GtmOnFailure ])%list.

(** The log record, when logging is on, and the request. *)
Definition requestActions (data : obj) (logging : bool) (traceId : value) (requestBody : obj)
  : list action :=
  ((if logging then [logRequest data traceId requestBody] else [])
   ++ [ SendHttpRequest (ENDPOINT data)
          [ ("headers", VObj HEADERS); ("method", VStr "POST"); ("timeout", VNum (Int 1000)) ]
          (postBody requestBody) ])%list.

(** One invocation whose request completes with response [r]: the actions of
    the script, then those of the callback. *)
Definition invoke (data eventData : obj) (containerVersion traceHeader : value) (r : response)
  : option (list action) :=
  let logging := LOGGING_ENABLED data containerVersion in
  let traceId := TRACE_ID data containerVersion traceHeader in
  rb <- requestBody data eventData ;;
  Some (requestActions data logging traceId rb ++ onResponse logging traceId rb r)%list.

End Template.

(** ** Vocabulary of the properties *)

Module Spec.

Import Host Template.

(** What the purge leaves of a value: nothing when it is [null] or [undefined]. *)
Definition purge (v : value) : value := if nullish v then VUndefined else v.

(** A sequence of property writes, in order. *)
Definition writes (ws : list (string * value)) (o : obj) : obj :=
  fold_left (fun o w => set (fst w) (snd w) o) ws o.

(** The value of the last write to [k], if any. *)
Definition last_write (k : string) (ws : list (string * value)) : option value :=
  option_map snd (find (fun w => String.eqb (fst w) k) (rev ws)).

(** The text fields of the UI that the map takes verbatim, as
    (request parameter, configuration field). *)
Definition direct_fields : list (string * string) :=
  [ ("idsite", "websiteId"); ("action_name", "action_name"); ("url", "url");
    ("urlref", "urlref"); ("search", "search"); ("link", "link");
    ("download", "download"); ("e_c", "e_c"); ("e_a", "e_a"); ("e_n", "e_n");
    ("e_v", "e_v"); ("_id", "_id"); ("uid", "uid"); ("cip", "cip"); ("e_t", "e_t");
    ("ec_id", "ec_id"); ("revenue", "revenue"); ("ec_st", "ec_st");
    ("ec_sh", "ec_sh"); ("ec_tx", "ec_tx"); ("ec_dt", "ec_dt") ].

(** The keys of the object literal that opens the UI map. *)
Definition literal_keys : list string :=
  [ "idsite"; "rec"; "uia"; "rmip"; "action_name"; "url"; "urlref"; "search";
    "search_cats"; "search_count"; "link"; "download"; "e_c"; "e_a"; "e_n"; "e_v";
    "_id"; "uid"; "cip"; "e_t"; "ec_id"; "revenue"; "ec_st"; "ec_sh"; "ec_tx";
    "ec_dt"; "ec_products" ].

(** The rows of a table parameter. *)
Definition rows (data : obj) (table : string) : list value :=
  elements (get table data).

(** The key an Additional Parameters row writes. *)
Definition param_key (param : value) : string := to_string (prop param "key").

(** Whether an Additional Parameters row writes key [k]. *)
Definition overridden (data : obj) (k : string) : bool :=
  existsb (fun param => String.eqb (param_key param) k) (rows data "additionalParameters").

(** The three sources of [ec_products], in the order they are tried. *)
Definition ec_products_candidates (data eventData : obj) : list value :=
  [ convertEcommerce (get "ec_products" data);
    get "x-pp-ec_products" eventData;
    convertEcommerce (get "items" eventData) ].

Definition is_nonempty_string (v : value) : bool :=
  match v with
  | VStr (String _ _) => true
  | _ => false
  end.

(** The serialization of the first candidate that serializes to a non-empty
    string, [undefined] when none does. *)
Definition first_serialized (candidates : list value) : value :=
  match find (fun c => is_nonempty_string (JSON_stringify c)) candidates with
  | Some c => JSON_stringify c
  | None => VUndefined
  end.

(** The single-item list of the converter's reference example. *)
Definition example_items : value :=
  VArr [ VObj [ ("item_id", VNum (Int 1)); ("item_name", VStr "A");
                ("price", VNum (Dec 95 1)); ("quantity", VNum (Int 2));
                ("item_category", VStr "X") ] ].

Definition is_object (item : value) : bool := String.eqb (getType item) "object".

(** An object holding one value of each kind the purge must tell apart. *)
Definition mixed_object : obj :=
  [ ("zero", VNum (Int 0)); ("empty", VStr EmptyString); ("none", VArr []);
    ("null", VNull); ("undef", VUndefined) ].

(** A table parameter as the host passes it: not set, or an array of rows. *)
Definition is_table (v : value) : bool :=
  (negb (truthy v)
   || match v with
      | VArr rs => forallb (fun r => negb (nullish r)) rs
      | _ => false
      end)%bool.

(** Inputs on which no step up to the parameter set raises: the search categories,
    when set, are text; the client identifier, when it is consulted, is text;
    the four tables are tables. *)
Definition well_typed (data eventData : obj) : bool :=
  ((negb (truthy (get "search_cats" data)) || String.eqb (getType (get "search_cats" data)) "string")
   && (truthy (get "_id" data) || negb (truthy (get "client_id" eventData))
       || String.eqb (getType (get "client_id" eventData)) "string")
   && is_table (get "custom_dims" data)
   && is_table (get "cvars_event" data)
   && is_table (get "cvars_session" data)
   && is_table (get "additionalParameters" data))%bool.

(** The requests among the actions of an invocation. *)
Definition requests (actions : list action) : list action := filter is_send actions.

(** Concrete invocations the properties are exercised on. *)

Definition products_data : obj := [ ("ec_products", VStr "not a list") ].
Definition products_event : obj :=
  [ ("x-pp-ec_products", VArr [VArr [VStr "sku-1"; VStr "Shirt"]]);
    ("items", VArr [VObj [("item_id", VNum (Int 1))]]) ].

Definition override_row : value := VObj [ ("key", VStr "idsite"); ("value", VStr "site-override") ].
Definition override_data : obj :=
  [ ("websiteId", VStr "site-config");
    ("additionalParameters", VArr [ VObj [("key", VStr "uid"); ("value", VStr "u-1")]; override_row ]) ].
Definition override_event : obj := [ ("x-pp-idsite", VStr "site-event") ].


Definition library_data : obj :=
  [ ("additionalParameters",
      VArr [ VObj [("key", VStr "ts_n"); ("value", VStr "custom")];
             VObj [("key", VStr "ts_v"); ("value", VStr "9.9.9")] ]) ].

Definition vendor_event : obj :=
  [ ("x-pp-ts_n", VStr "custom"); ("x-pp-cs", VStr "utf-8"); ("x-pp-ua", VStr "agent");
    ("x-pp-gone", VNull) ].

Definition search_data : obj :=
  [ ("url", VStr "https://shop.example/search"); ("search_cats", VStr "shoes, boots");
    ("search_count", VStr "5"); ("anonymous", VStr "uia") ].
Definition search_event : obj :=
  [ ("page_location", VStr "https://event.example/"); ("x-pp-search_cats", VArr [VStr "event"]);
    ("x-pp-search_count", VNum (Int 7)); ("x-pp-uia", VNum (Int 0)) ].

Definition visitor_data : obj := [ ("_id", VStr "visitor-1") ].
Definition visitor_event : obj := [ ("client_id", VStr "GA1.2.3") ].
Definition hashed_event : obj := [ ("client_id", VStr "abc"); ("x-pp-_id", VStr "0123456789abcdef") ].

Definition run_literal (data eventData : obj) : obj :=
  match uiParamMap_literal data eventData with
  | Some lit => lit
  | None => []
  end.

Definition run (data eventData : obj) : obj :=
  match requestBody data eventData with
  | Some body => body
  | None => []
  end.

(** The parameter set of an invocation with an empty configuration and an
    empty event. *)
Definition default_body : obj :=
  Eval vm_compute in match requestBody [] [] with Some body => body | None => [] end.

End Spec.

(** ** Vocabulary of the further properties *)

Module Cover.

Import Host Template Spec.

Definition defined (kv : string * value) : bool := negb (nullish (snd kv)).

(** The key a custom dimension row writes. *)
Definition dim_key (dim : value) : string := ("dimension" ++ to_string (prop dim "index"))%string.

(** The key a custom variable row writes in the object of its scope. *)
Definition cvar_id (cur : value) : string := to_string (prop cur "id").

(** The keys the script adds to the map after the object literal, tables apart. *)
Definition late_keys : list string := [ "ua"; "lang"; "res"; "cvar"; "_cvar" ].

(** The event key whose prefix-free name is [k]. *)
Definition vendor (k : string) : string := ("x-pp-" ++ k)%string.

(** The text fields with one inherited source, as
    (request parameter, configuration field, event field). *)
Definition inherited_fields : list (string * string * string) :=
  [ ("url", "url", "page_location"); ("urlref", "urlref", "page_referrer");
    ("search", "search", "x-pp-search"); ("link", "link", "x-pp-link");
    ("download", "download", "x-pp-download"); ("e_c", "e_c", "x-pp-e_c");
    ("e_a", "e_a", "x-pp-e_a"); ("e_n", "e_n", "x-pp-e_n"); ("e_v", "e_v", "x-pp-e_v");
    ("uid", "uid", "user_id"); ("cip", "cip", "ip_override"); ("e_t", "e_t", "x-pp-e_t");
    ("revenue", "revenue", "value"); ("ec_st", "ec_st", "x-pp-ec_st");
    ("ec_sh", "ec_sh", "x-pp-ec_sh"); ("ec_tx", "ec_tx", "x-pp-ec_tx");
    ("ec_dt", "ec_dt", "x-pp-ec_dt") ].

(** Whether the configuration or the event classifies the event as a page view. *)
Definition is_pageview (data eventData : obj) : bool :=
  (is_str (get "eventType" data) "pageview" || is_str (get "event_name" eventData) "page_view")%bool.

(** The trailing dimension map of a converted item. *)
Definition item_dimensions (item : value) : obj :=
  match convertItem item with
  | VArr [_; _; _; _; _; _; _; VObj dims] => dims
  | _ => []
  end.

(** The shape of a product array: a string id, a name, at most five truthy
    category levels, price, quantity, brand, variant, a dimension map. *)
Definition is_product (t : value) : Prop :=
  exists id name cats price quantity brand variant dims,
    t = VArr [VStr id; name; VArr cats; price; quantity; brand; variant; VObj dims]
    /\ Forall (fun c => truthy c = true) cats
    /\ (List.length cats <= 5)%nat.

Definition is_log (a : action) : bool :=
  match a with
  | LogToConsole _ => true
  | _ => false
  end.

Definition is_signal (a : action) : bool :=
  match a with
  | GtmOnSuccess | GtmOnFailure => true
  | _ => false
  end.

(** The debug state of the container, as [isLoggingEnabled] reads it. *)
Definition isDebug (containerVersion : value) : bool :=
  truthy (and_then containerVersion
            (or_else (prop containerVersion "debugMode") (prop containerVersion "previewMode"))).

(** The text of one parameter in the query string. *)
Definition pair_text (requestBody : obj) (k : string) : string :=
  (k ++ "=" ++ encodeUriComponent (get k requestBody))%string.

(** The text the loop of [postBody] accumulates: every pair with its separator. *)
Fixpoint pairs_text (requestBody : obj) (ks : list string) : string :=
  match ks with
  | [] => EmptyString
  | k :: rest => (pair_text requestBody k ++ "&" ++ pairs_text requestBody rest)%string
  end.

Fixpoint count_char (c : ascii) (s : string) : nat :=
  match s with
  | EmptyString => O
  | String a s' => ((if Ascii.eqb a c then 1 else 0) + count_char c s')%nat
  end.

Definition first_char_ok (s : string) : bool :=
  match s with
  | EmptyString => true
  | String a _ => negb (is_space a)
  end.

Fixpoint last_char_ok (s : string) : bool :=
  match s with
  | EmptyString => true
  | String a EmptyString => negb (is_space a)
  | String _ s' => last_char_ok s'
  end.

(** A string without white space at either end. *)
Definition trimmed (s : string) : bool := (first_char_ok s && last_char_ok s)%bool.

(** The parameters whose value is JSON text. *)
Definition json_keys : list string := [ "search_cats"; "cvar"; "_cvar"; "ec_products" ].

Definition is_byte (b : Z) : Prop := 0 <= b < 256.

(** Whether a value is a visitor id: 16 hexadecimal characters. *)
Definition is_visitor_id (v : value) : bool := testRegex_hex16 v.

(** A configuration with tables, for the record of a run. *)
Definition tables_data : obj :=
  [ ("websiteId", VStr "site-1");
    ("custom_dims", VArr [ VObj [("index", VStr "3"); ("value", VStr "gold")] ]);
    ("cvars_event", VArr [ VObj [("id", VStr "1"); ("name", VStr "plan"); ("value", VStr "pro")] ]);
    ("additionalParameters",
      VArr [ VObj [("key", VStr "lang"); ("value", VStr "de")];
             VObj [("key", VStr "uia"); ("value", VNull)];
             VObj [("key", VStr "e_n"); ("value", VStr EmptyString)] ]) ].

Definition tables_event : obj :=
  [ ("client_id", VStr "0123456789abcdef"); ("language", VStr "en"); ("user_agent", VStr "agent");
    ("x-pp-dimension3", VStr "silver"); ("x-pp-cvar", VObj [("9", VStr "event")]);
    ("x-pp-idsite", VStr "site-event"); ("x-pp-ua", VStr "vendor-agent");
    ("page_title", VStr "Home"); ("event_name", VStr "page_view");
    ("transaction_id", VStr "T-1") ].

End Cover.

(** * Properties *)

Import Js Host Template Spec.

(** ** The model on known values *)

Example sha256_abc :
  Sha256.hex "abc" = "ba7816bf8f01cfea414140de5dae2223b00361a396177a9cb410ff61f20015ad".
Proof. vm_compute. reflexivity. Qed.

Example sha256_empty :
  Sha256.hex EmptyString = "e3b0c44298fc1c149afbf4c8996fb92427ae41e4649b934ca495991b7852b855".
Proof. vm_compute. reflexivity. Qed.

Example stringify_mixed :
  JSON_stringify (VArr [VNum (Dec 95 1); VUndefined; VBool true; VArr []; VObj []])
  = VStr "[9.5,null,true,[],{}]".
Proof. reflexivity. Qed.

Example makeNumber_text : makeNumber (VStr " 12.50 ") = Dec 1250 2.
Proof. reflexivity. Qed.

Example trimmed_categories :
  stringToArrayAndTrim (VStr "shoes, boots ,,hats")
  = Some (VArr [VStr "shoes"; VStr "boots"; VStr EmptyString; VStr "hats"]).
Proof. reflexivity. Qed.

Example postBody_default :
  postBody default_body = "rec=1&uia=0&rmip=0&ts_n=sgtm&ts_v=1.0.3".
Proof. reflexivity. Qed.

Example encoded_url :
  encodeUriComponent (VStr "https://x.y/?q=1 2") = "https%3A%2F%2Fx.y%2F%3Fq%3D1%202".
Proof. reflexivity. Qed.

(** ** Objects: reads after writes *)

Lemma get_set_same (k : string) (v : value) (o : obj) : get k (set k v o) = v.
Proof.
  induction o as [|[k' v'] rest IH]; simpl.
  - now rewrite String.eqb_refl.
  - destruct (String.eqb k k') eqn:E; simpl; rewrite E; auto.
Qed.

Lemma get_set_other (k k' : string) (v : value) (o : obj) :
  k <> k' -> get k (set k' v o) = get k o.
Proof.
  intros Hne. induction o as [|[k0 v0] rest IH]; simpl.
  - destruct (String.eqb_spec k k'); congruence.
  - destruct (String.eqb_spec k' k0) as [->|Hk0]; simpl.
    + destruct (String.eqb_spec k k0); congruence.
    + destruct (String.eqb_spec k k0); auto.
Qed.

Lemma keys_set (k k' : string) (v : value) (o : obj) :
  In k (keys (set k' v o)) <-> k = k' \/ In k (keys o).
Proof.
  unfold keys. induction o as [|[k0 v0] rest IH]; simpl.
  - intuition.
  - destruct (String.eqb_spec k' k0) as [->|Hk0]; simpl.
    + intuition.
    + rewrite IH. intuition.
Qed.

Lemma get_absent (k : string) (o : obj) : ~ In k (keys o) -> get k o = VUndefined.
Proof.
  unfold keys. induction o as [|[k0 v0] rest IH]; simpl; intros Hn; auto.
  destruct (String.eqb_spec k k0) as [->|Hne]; [tauto | apply IH; tauto].
Qed.

Lemma get_present (k : string) (o : obj) : nullish (get k o) = false -> In k (keys o).
Proof.
  intros Hv. destruct (in_dec string_dec k (keys o)) as [Hin|Hn]; auto.
  rewrite (get_absent k o Hn) in Hv. discriminate.
Qed.

Lemma has_In (k : string) (o : obj) : has k o = true <-> In k (keys o).
Proof.
  unfold has. rewrite existsb_exists. split.
  - intros [x [Hin Heq]]. apply String.eqb_eq in Heq. now subst.
  - intros Hin. exists k. split; auto. apply String.eqb_refl.
Qed.

Lemma has_false (k : string) (o : obj) : has k o = false <-> ~ In k (keys o).
Proof.
  rewrite <- has_In. destruct (has k o); split; congruence.
Qed.

(** ** Loops that assign properties

    Every [forEach] and [reduce] of the template that writes into an object has
    the shape "for each [x], when [c x], set [f x] to [g x]". *)

Section AssignLoop.

Context {A : Type}.
Variable step : obj -> A -> obj.
Variable c : A -> bool.
Variable f : A -> string.
Variable g : A -> value.
Hypothesis step_eq : forall o x, step o x = if c x then set (f x) (g x) o else o.

Lemma loop_get_untouched (k : string) (xs : list A) (o : obj) :
  (forall x, In x xs -> c x = true -> f x <> k) ->
  get k (fold_left step xs o) = get k o.
Proof.
  revert o. induction xs as [|x xs IH]; simpl; intros o Hno; auto.
  rewrite IH by (intros; apply Hno; auto).
  rewrite step_eq. destruct (c x) eqn:Hc; auto.
  apply get_set_other. intros ->. now apply (Hno x); auto.
Qed.

Lemma loop_get_written (k : string) (v : value) (xs : list A) (o : obj) :
  (exists x, In x xs /\ c x = true /\ f x = k) ->
  (forall x, In x xs -> c x = true -> f x = k -> g x = v) ->
  get k (fold_left step xs o) = v.
Proof.
  induction xs as [|x xs IH] using rev_ind; intros [y [Hin [Hc Hf]]] Hall.
  - destruct Hin.
  - rewrite fold_left_app. simpl. rewrite step_eq.
    destruct (c x) eqn:Hcx.
    + destruct (string_dec (f x) k) as [Hk|Hk].
      * rewrite Hk, get_set_same. apply Hall; auto.
        apply in_or_app. right. now left.
      * rewrite get_set_other by congruence.
        apply IH.
        -- apply in_app_or in Hin. destruct Hin as [Hin|[->|[]]].
           ++ exists y. auto.
           ++ congruence.
        -- intros z Hz. apply Hall. apply in_or_app. now left.
    + apply IH.
      * apply in_app_or in Hin. destruct Hin as [Hin|[->|[]]].
        -- exists y. auto.
        -- congruence.
      * intros z Hz. apply Hall. apply in_or_app. now left.
Qed.

Lemma loop_keys (k : string) (xs : list A) (o : obj) :
  In k (keys (fold_left step xs o)) <->
  In k (keys o) \/ exists x, In x xs /\ c x = true /\ f x = k.
Proof.
  revert o. induction xs as [|x xs IH]; simpl; intros o.
  - split; [auto | intros [H|[x [[] _]]]; auto].
  - rewrite IH, step_eq. destruct (c x) eqn:Hc.
    + rewrite keys_set. split.
      * intros [[->|H]|[y [Hy Hr]]]; eauto 6.
      * intros [H|[y [[->|Hy] [Hcy Hf]]]]; eauto 6.
    + split.
      * intros [H|[y [Hy Hr]]]; eauto 6.
      * intros [H|[y [[->|Hy] [Hcy Hf]]]]; eauto 6. congruence.
Qed.

End AssignLoop.

(** ** Strings: the vendor prefix *)

Lemma take_drop (p s : string) :
  take (String.length p) s = p -> s = (p ++ drop (String.length p) s)%string.
Proof.
  unfold take. revert s. induction p as [|a p IH]; intros s H; simpl.
  - reflexivity.
  - destruct s as [|b s]; simpl in H; [discriminate|].
    injection H as -> H. f_equal. now apply IH.
Qed.

Lemma vendor_key (key : string) :
  take 5 key = "x-pp-" -> key = ("x-pp-" ++ drop 5 key)%string.
Proof. intros H. now apply (take_drop "x-pp-" key). Qed.

Lemma replace_first_prefix (pat rep s : string) :
  take (String.length pat) s = pat ->
  replace_first pat rep s = (rep ++ drop (String.length pat) s)%string.
Proof.
  intros H. apply String.prefix_correct in H.
  destruct s; cbn [replace_first]; now rewrite H.
Qed.

Lemma strip_vendor_prefix (key : string) :
  take 5 key = "x-pp-" -> replace_first "x-pp-" EmptyString key = drop 5 key.
Proof. intros H. now rewrite (replace_first_prefix "x-pp-" EmptyString key H). Qed.

Lemma drop_vendor_inj (key key' : string) :
  take 5 key = "x-pp-" -> take 5 key' = "x-pp-" -> drop 5 key = drop 5 key' -> key = key'.
Proof.
  intros H H' E. rewrite (vendor_key key H), (vendor_key key' H'). now rewrite E.
Qed.

(** ** The purge *)

Lemma cleanObject_get (k : string) (o : obj) : get k (cleanObject o) = purge (get k o).
Proof.
  unfold cleanObject, purge.
  pose proof (fun t x => eq_refl :
    (fun target k => if negb (nullish (get k o)) then set k (get k o) target else target) t x
    = if (fun k => negb (nullish (get k o))) x
      then set ((fun k => k) x) ((fun k => get k o) x) t else t) as Hstep.
  destruct (nullish (get k o)) eqn:E.
  - rewrite (loop_get_untouched _ _ _ _ Hstep); auto.
    intros x _ Hc ->. rewrite E in Hc. discriminate.
  - apply (loop_get_written _ _ _ _ Hstep).
    + exists k. rewrite E. auto using get_present.
    + now intros x _ _ ->.
Qed.

Lemma cleanObject_keys (k : string) (o : obj) :
  In k (keys (cleanObject o)) <-> In k (keys o) /\ nullish (get k o) = false.
Proof.
  unfold cleanObject.
  pose proof (fun t x => eq_refl :
    (fun target k => if negb (nullish (get k o)) then set k (get k o) target else target) t x
    = if (fun k => negb (nullish (get k o))) x
      then set ((fun k => k) x) ((fun k => get k o) x) t else t) as Hstep.
  rewrite (loop_keys _ _ _ _ Hstep). simpl. split.
  - intros [[]|[x [Hin [Hc ->]]]]. split; auto. now destruct (nullish (get k o)).
  - intros [Hin Hn]. right. exists k. rewrite Hn. auto.
Qed.

(** ** The request body *)

Lemma overwrite_get (k : string) (rb ui : obj) :
  get k (overwrite rb ui) = if has k ui then get k ui else get k rb.
Proof.
  unfold overwrite.
  pose proof (fun t x => eq_refl :
    (fun requestBody key => set key (get key ui) requestBody) t x
    = if (fun _ => true) x then set ((fun k => k) x) ((fun k => get k ui) x) t else t) as Hstep.
  destruct (has k ui) eqn:E.
  - apply (loop_get_written _ (fun _ => true) (fun k => k) (fun k => get k ui) Hstep).
    + exists k. apply has_In in E. auto.
    + now intros x _ _ ->.
  - apply (loop_get_untouched _ (fun _ => true) (fun k => k) (fun k => get k ui) Hstep).
    intros x Hin _ ->. apply has_false in E. contradiction.
Qed.

Lemma overwrite_keys (k : string) (rb ui : obj) :
  In k (keys (overwrite rb ui)) <-> In k (keys rb) \/ In k (keys ui).
Proof.
  unfold overwrite.
  pose proof (fun t x => eq_refl :
    (fun requestBody key => set key (get key ui) requestBody) t x
    = if (fun _ => true) x then set ((fun k => k) x) ((fun k => get k ui) x) t else t) as Hstep.
  rewrite (loop_keys _ (fun _ => true) (fun k => k) (fun k => get k ui) Hstep). split.
  - intros [H|[x [Hin [_ ->]]]]; auto.
  - intros [H|H]; eauto.
Qed.

Lemma passthrough_get (key : string) (eventData : obj) :
  In key (keys eventData) -> take 5 key = "x-pp-" ->
  get (drop 5 key) (passthrough eventData) = get key eventData.
Proof.
  intros Hin Hp. unfold passthrough.
  pose proof (fun t x => eq_refl :
    (fun requestBody key => set (replace_first "x-pp-" EmptyString key) (get key eventData) requestBody) t x
    = if (fun _ => true) x
      then set (replace_first "x-pp-" EmptyString x) ((fun k => get k eventData) x) t else t) as Hstep.
  apply (loop_get_written _ (fun _ => true) (replace_first "x-pp-" EmptyString)
           (fun k => get k eventData) Hstep).
  - exists key. rewrite filter_In, Hp. auto using strip_vendor_prefix.
  - intros x Hx _ Hk. apply filter_In in Hx. destruct Hx as [_ Hx].
    apply String.eqb_eq in Hx. rewrite (strip_vendor_prefix x Hx) in Hk.
    now rewrite (drop_vendor_inj x key Hx Hp Hk).
Qed.

Lemma body_get (k : string) (eventData ui : obj) :
  k <> "ts_n" -> k <> "ts_v" ->
  get k (buildRequestBody eventData ui)
  = purge (if has k ui then get k ui else get k (passthrough eventData)).
Proof.
  intros Hn Hv. unfold buildRequestBody.
  now rewrite cleanObject_get, !get_set_other, overwrite_get.
Qed.

Lemma body_library (eventData ui : obj) :
  get "ts_n" (buildRequestBody eventData ui) = VStr LIBRARY_NAME
  /\ get "ts_v" (buildRequestBody eventData ui) = VStr LIBRARY_VERSION.
Proof.
  unfold buildRequestBody. rewrite !cleanObject_get. split.
  - rewrite get_set_other by discriminate. now rewrite get_set_same.
  - now rewrite get_set_same.
Qed.

Lemma body_keys (k : string) (eventData ui : obj) :
  In k (keys (buildRequestBody eventData ui)) ->
  nullish (get k (buildRequestBody eventData ui)) = false.
Proof.
  unfold buildRequestBody. intros H. apply cleanObject_keys in H.
  rewrite cleanObject_get. unfold purge. now rewrite (proj2 H).
Qed.

(** ** Loops that can raise *)

Section AssignLoopM.

Context {A : Type}.
Variable step : obj -> A -> option obj.
Variable f : A -> string.
Variable g : A -> value.
Hypothesis step_eq : forall o x o', step o x = Some o' -> o' = set (f x) (g x) o.

Lemma loopM_app (xs ys : list A) (o o' : obj) :
  foldM step (xs ++ ys) o = Some o' ->
  exists m, foldM step xs o = Some m /\ foldM step ys m = Some o'.
Proof.
  revert o. induction xs as [|x xs IH]; simpl; intros o H.
  - eauto.
  - unfold bind in *. destruct (step o x) as [s|]; [|discriminate]. now apply IH.
Qed.

Lemma loopM_get_untouched (k : string) (xs : list A) (o o' : obj) :
  foldM step xs o = Some o' ->
  (forall x, In x xs -> f x <> k) ->
  get k o' = get k o.
Proof.
  revert o. induction xs as [|x xs IH]; simpl; intros o H Hno.
  - now injection H as ->.
  - unfold bind in H. destruct (step o x) as [s|] eqn:Hs; [|discriminate].
    rewrite (IH s H) by (intros; apply Hno; auto).
    rewrite (step_eq _ _ _ Hs). apply get_set_other.
    intros ->. now apply (Hno x); auto.
Qed.

Lemma loopM_get_last (k : string) (before after : list A) (x : A) (o o' : obj) :
  foldM step (before ++ x :: after) o = Some o' ->
  f x = k ->
  (forall y, In y after -> f y <> k) ->
  get k o' = g x.
Proof.
  intros H Hk Hafter. apply loopM_app in H. destruct H as [m [_ H]].
  simpl in H. unfold bind in H. destruct (step m x) as [s|] eqn:Hs; [|discriminate].
  rewrite (loopM_get_untouched k after s o' H Hafter).
  rewrite (step_eq _ _ _ Hs), Hk. apply get_set_same.
Qed.

Lemma loopM_keys_grow (k : string) (xs : list A) (o o' : obj) :
  foldM step xs o = Some o' -> In k (keys o) -> In k (keys o').
Proof.
  revert o. induction xs as [|x xs IH]; simpl; intros o H Hin.
  - now injection H as <-.
  - unfold bind in H. destruct (step o x) as [s|] eqn:Hs; [|discriminate].
    apply (IH s H). rewrite (step_eq _ _ _ Hs). apply keys_set. auto.
Qed.


End AssignLoopM.

Lemma member_Some (v : value) (k : string) (r : value) :
  member v k = Some r -> r = prop v k.
Proof. unfold member. destruct (nullish v); congruence. Qed.

Lemma elements_or_empty (v : value) : elements (or_else v (VArr [])) = elements v.
Proof. unfold or_else. now destruct v as [| |[]|[|m e]|s| |]; simpl; try destruct (_ =? _)%Z; try destruct (String.eqb _ _). Qed.

Lemma forEach_elements {S : Type} (arr : value) (step : S -> value -> option S) (s s' : S) :
  forEach arr step s = Some s' -> foldM step (elements arr) s = Some s'.
Proof. destruct arr; simpl; congruence. Qed.

(** The step of the Additional Parameters pass. *)
Lemma additional_step (o : obj) (param : value) (o' : obj) :
  (key <- member param "key" ;; v <- member param "value" ;;
   Some (set (to_string key) v o)) = Some o' ->
  o' = set (param_key param) (prop param "value") o.
Proof.
  unfold bind, param_key.
  destruct (member param "key") as [key|] eqn:Hk; [|discriminate].
  destruct (member param "value") as [v|] eqn:Hv; [|discriminate].
  apply member_Some in Hk, Hv. subst. congruence.
Qed.

(** The step of the custom dimensions pass. *)
Lemma dimension_step (o : obj) (dim : value) (o' : obj) :
  (index <- member dim "index" ;; v <- member dim "value" ;;
   Some (set ("dimension" ++ to_string index) v o)) = Some o' ->
  o' = set ("dimension" ++ to_string (prop dim "index")) (prop dim "value") o.
Proof.
  unfold bind.
  destruct (member dim "index") as [index|] eqn:Hk; [|discriminate].
  destruct (member dim "value") as [v|] eqn:Hv; [|discriminate].
  apply member_Some in Hk, Hv. subst. congruence.
Qed.

Lemma additionalParameters_rows (data ui ui' : obj) :
  additionalParameters data ui = Some ui' ->
  foldM (fun ui param =>
           key <- member param "key" ;; v <- member param "value" ;;
           Some (set (to_string key) v ui))
        (rows data "additionalParameters") ui = Some ui'.
Proof.
  unfold additionalParameters, rows. intros H. apply forEach_elements in H.
  now rewrite elements_or_empty in H.
Qed.

Lemma overridden_false (data : obj) (k : string) :
  overridden data k = false ->
  forall param, In param (rows data "additionalParameters") -> param_key param <> k.
Proof.
  unfold overridden. intros H param Hin Hk.
  assert (existsb (fun param => String.eqb (param_key param) k)
                  (rows data "additionalParameters") = true) as E.
  { apply existsb_exists. exists param. split; auto. now apply String.eqb_eq. }
  congruence.
Qed.

Lemma literal_key_facts (k : string) :
  In k literal_keys ->
  k <> "ua" /\ k <> "lang" /\ k <> "res" /\ k <> "cvar" /\ k <> "_cvar"
  /\ k <> "ts_n" /\ k <> "ts_v" /\ take 9 k <> "dimension".
Proof.
  unfold literal_keys. intros H.
  repeat (destruct H as [<-|H]; [repeat split; intros E; vm_compute in E; discriminate|]).
  destruct H.
Qed.

Lemma take_dimension (s : string) : take 9 ("dimension" ++ s) = "dimension".
Proof. unfold take. simpl. now destruct s. Qed.

Lemma literal_has_keys (data eventData lit : obj) :
  uiParamMap_literal data eventData = Some lit -> keys lit = literal_keys.
Proof.
  unfold uiParamMap_literal, bind. intros H.
  destruct (if truthy (get "search_cats" data) then _ else _); [|discriminate].
  destruct (if truthy (get "_id" data) then _ else _); [|discriminate].
  injection H as <-. reflexivity.
Qed.

(** Past the object literal, only an Additional Parameters row can change
    the value under one of its keys. *)
Lemma uiParamMap_keeps_literal (data eventData ui : obj) :
  uiParamMap data eventData = Some ui ->
  exists lit, uiParamMap_literal data eventData = Some lit
    /\ forall k, In k literal_keys ->
         In k (keys ui)
         /\ (overridden data k = false -> get k ui = get k lit).
Proof.
  unfold uiParamMap, bind. intros H.
  destruct (uiParamMap_literal data eventData) as [lit|] eqn:Hlit; [|discriminate].
  destruct (customDims data (commonParams eventData lit)) as [ui1|] eqn:Hdims; [|discriminate].
  destruct (cvarParam _ _) as [cvar|]; [|discriminate].
  destruct (cvarParam _ _) as [_cvar|]; [|discriminate].
  exists lit. split; auto. intros k Hk.
  destruct (literal_key_facts k Hk) as (Hua & Hlang & Hres & Hcvar & H_cvar & _ & _ & Hdim).
  apply additionalParameters_rows in H.
  unfold customDims in Hdims. apply forEach_elements in Hdims.
  split.
  - apply (loopM_keys_grow _ _ _ additional_step k _ _ _ H).
    apply keys_set. right. apply keys_set. right.
    apply (loopM_keys_grow _ _ _ dimension_step k _ _ _ Hdims).
    unfold commonParams. rewrite !keys_set. right. right. right.
    now rewrite (literal_has_keys _ _ _ Hlit).
  - intros Hov.
    rewrite (loopM_get_untouched _ _ _ additional_step k _ _ _ H)
      by (apply overridden_false; auto).
    rewrite !get_set_other by auto.
    rewrite (loopM_get_untouched _ _ _ dimension_step k _ _ _ Hdims).
    + unfold commonParams. now rewrite !get_set_other by auto.
    + intros dim _ E. apply Hdim. rewrite <- E. apply take_dimension.
Qed.

(** The value the final parameter set holds under a key of the literal. *)
Lemma requestBody_literal (data eventData body : obj) :
  requestBody data eventData = Some body ->
  exists lit, uiParamMap_literal data eventData = Some lit
    /\ forall k, In k literal_keys -> overridden data k = false ->
         get k body = purge (get k lit).
Proof.
  unfold requestBody, bind. intros H.
  destruct (uiParamMap data eventData) as [ui|] eqn:Hui; [|discriminate].
  injection H as <-.
  destruct (uiParamMap_keeps_literal _ _ _ Hui) as [lit [Hlit Hkeys]].
  exists lit. split; auto. intros k Hk Hov.
  destruct (Hkeys k Hk) as [Hin Hget].
  destruct (literal_key_facts k Hk) as (_ & _ & _ & _ & _ & Hn & Hv & _).
  rewrite body_get by auto.
  apply has_In in Hin. now rewrite Hin, Hget.
Qed.

Lemma requestBody_defined (data eventData body : obj) (k : string) :
  requestBody data eventData = Some body -> In k (keys body) -> nullish (get k body) = false.
Proof.
  unfold requestBody, bind. intros H Hin.
  destruct (uiParamMap data eventData) as [ui|]; [|discriminate].
  injection H as <-. now apply body_keys.
Qed.

(** ** The script returns on well-typed inputs *)

Lemma foldM_total {A S : Type} (step : S -> A -> option S) (xs : list A) :
  (forall s x, In x xs -> exists s', step s x = Some s') ->
  forall s, exists s', foldM step xs s = Some s'.
Proof.
  induction xs as [|x xs IH]; simpl; intros Hstep s.
  - eauto.
  - destruct (Hstep s x (or_introl eq_refl)) as [s1 ->]. simpl.
    apply IH. intros; apply Hstep; auto.
Qed.

Lemma member_defined (v : value) (k : string) :
  nullish v = false -> member v k = Some (prop v k).
Proof. unfold member. now intros ->. Qed.

Lemma is_table_rows (v : value) (r : value) :
  is_table v = true -> In r (elements v) -> nullish r = false.
Proof.
  unfold is_table. intros H Hin. destruct v; simpl in Hin; try contradiction.
  simpl in H. rewrite forallb_forall in H. specialize (H r Hin). now destruct (nullish r).
Qed.

Lemma is_table_forEach {S : Type} (v : value) (step : S -> value -> option S) (s : S) :
  is_table v = true ->
  forEach (or_else v (VArr [])) step s = foldM step (elements v) s.
Proof.
  unfold is_table, or_else. intros H.
  destruct (truthy v) eqn:Hv.
  - destruct v; try discriminate H. reflexivity.
  - destruct v; try discriminate Hv; reflexivity.
Qed.

Lemma customDims_total (data ui : obj) :
  is_table (get "custom_dims" data) = true -> exists ui', customDims data ui = Some ui'.
Proof.
  intros H. unfold customDims. rewrite (is_table_forEach _ _ _ H).
  apply foldM_total. intros s dim Hin.
  rewrite !(member_defined dim) by (apply (is_table_rows _ _ H Hin)). simpl. eauto.
Qed.

Lemma additionalParameters_total (data ui : obj) :
  is_table (get "additionalParameters" data) = true ->
  exists ui', additionalParameters data ui = Some ui'.
Proof.
  intros H. unfold additionalParameters. rewrite (is_table_forEach _ _ _ H).
  apply foldM_total. intros s param Hin.
  rewrite !(member_defined param) by (apply (is_table_rows _ _ H Hin)). simpl. eauto.
Qed.

Lemma cvarParam_total (cvars inherited : value) :
  is_table cvars = true -> exists v, cvarParam cvars inherited = Some v.
Proof.
  intros H. unfold cvarParam.
  destruct (truthy (and_then cvars (prop cvars "length"))) eqn:Ht; [|eauto].
  assert (forEach cvars
            (fun acc cur =>
               id <- member cur "id" ;; name <- member cur "name" ;; v <- member cur "value" ;;
               Some (set (to_string id) (VArr [name; v]) acc)) []
          = foldM (fun acc cur =>
               id <- member cur "id" ;; name <- member cur "name" ;; v <- member cur "value" ;;
               Some (set (to_string id) (VArr [name; v]) acc)) (elements cvars) []) as E.
  { unfold and_then in Ht. unfold is_table in H.
    destruct (truthy cvars) eqn:Hc; [|congruence].
    destruct cvars; try discriminate H. reflexivity. }
  rewrite E.
  destruct (foldM_total
              (fun acc cur =>
                 id <- member cur "id" ;; name <- member cur "name" ;; v <- member cur "value" ;;
                 Some (set (to_string id) (VArr [name; v]) acc)) (elements cvars)) with (s := @nil (string * value))
    as [acc ->].
  - intros s cur Hin. rewrite !(member_defined cur) by (apply (is_table_rows _ _ H Hin)).
    simpl. eauto.
  - simpl. eauto.
Qed.

Lemma uiParamMap_literal_total (data eventData : obj) :
  (negb (truthy (get "search_cats" data))
   || String.eqb (getType (get "search_cats" data)) "string")%bool = true ->
  (truthy (get "_id" data) || negb (truthy (get "client_id" eventData))
   || String.eqb (getType (get "client_id" eventData)) "string")%bool = true ->
  exists lit, uiParamMap_literal data eventData = Some lit.
Proof.
  intros Hsc Hid. unfold uiParamMap_literal.
  assert (exists sc, (if truthy (get "search_cats" data)
                      then stringToArrayAndTrim (get "search_cats" data)
                      else Some (get "x-pp-search_cats" eventData)) = Some sc) as [sc ->].
  { destruct (truthy (get "search_cats" data)); [|eauto].
    destruct (get "search_cats" data); simpl in *; try discriminate; eauto. }
  assert (exists id, (if truthy (get "_id" data) then Some (get "_id" data)
                      else getClientIdHash eventData) = Some id) as [id ->].
  { destruct (truthy (get "_id" data)); [eauto|]. unfold getClientIdHash.
    destruct (truthy (get "client_id" eventData)); cbn [negb orb] in *; [|eauto].
    destruct (testRegex_hex16 (get "client_id" eventData)); [eauto|].
    destruct (get "client_id" eventData); cbn [getType sha256Sync bind] in *;
      try discriminate; eauto. }
  cbn [bind]. eauto.
Qed.

(** On well-typed inputs the script reaches the request: it has a parameter set. *)
Lemma requestBody_total (data eventData : obj) :
  well_typed data eventData = true -> exists body, requestBody data eventData = Some body.
Proof.
  unfold well_typed. rewrite !andb_true_iff.
  intros [[[[[Hsc Hid] Hdims] Hev] Hsess] Hadd].
  unfold requestBody, uiParamMap.
  destruct (uiParamMap_literal_total data eventData Hsc Hid) as [lit ->]. cbn [bind].
  destruct (customDims_total data (commonParams eventData lit) Hdims) as [ui1 ->]. cbn [bind].
  destruct (cvarParam_total (get "cvars_event" data) (get "x-pp-cvar" eventData) Hev) as [cv ->].
  cbn [bind].
  destruct (cvarParam_total (get "cvars_session" data) (get "x-pp-_cvar" eventData) Hsess)
    as [scv ->].
  cbn [bind].
  destruct (additionalParameters_total data (set "_cvar" scv (set "cvar" cv ui1)) Hadd)
    as [ui ->].
  cbn [bind]. eauto.
Qed.

(** ** The purge (C3) *)

Lemma writes_snoc (ws : list (string * value)) (w : string * value) (o : obj) :
  writes (ws ++ [w]) o = set (fst w) (snd w) (writes ws o).
Proof. unfold writes. now rewrite fold_left_app. Qed.

Lemma writes_get (k : string) (ws : list (string * value)) (o : obj) :
  get k (writes ws o) = match last_write k ws with
                        | Some v => v
                        | None => get k o
                        end.
Proof.
  induction ws as [|w ws IH] using rev_ind.
  - reflexivity.
  - rewrite writes_snoc. unfold last_write. rewrite rev_unit. simpl.
    destruct (String.eqb_spec (fst w) k) as [->|Hne].
    + apply get_set_same.
    + rewrite get_set_other by congruence. apply IH.
Qed.

(** C3: after the purge no key maps to null or undefined; exactly the keys
    whose value is null or undefined are removed, so a zero, an empty string
    or an empty array stays; every surviving key keeps its value, which is
    the last one written for it.  The parameter set of an invocation is the
    result of the purge, so none of its keys maps to null or undefined. *)
Theorem C3_purge_removes_only_nullish :
  (forall o : obj,
     (forall k, In k (keys (cleanObject o)) -> nullish (get k (cleanObject o)) = false)
     /\ (forall k, In k (keys (cleanObject o)) <-> In k (keys o) /\ nullish (get k o) = false)
     /\ (forall k, In k (keys (cleanObject o)) -> get k (cleanObject o) = get k o)
     /\ (forall ws k v, o = writes ws [] -> last_write k ws = Some v -> nullish v = false ->
           In k (keys (cleanObject o)) /\ get k (cleanObject o) = v))
  /\ (forall data eventData body k, requestBody data eventData = Some body ->
        In k (keys body) -> nullish (get k body) = false).
Proof.
  split; [intros o; split; [|split; [|split]]|].
  - intros k H. apply cleanObject_keys in H. rewrite cleanObject_get. unfold purge.
    now rewrite (proj2 H).
  - intros k. apply cleanObject_keys.
  - intros k H. apply cleanObject_keys in H. rewrite cleanObject_get. unfold purge.
    now rewrite (proj2 H).
  - intros ws k v -> Hlast Hv.
    assert (get k (writes ws []) = v) as E by (now rewrite writes_get, Hlast).
    split.
    + apply cleanObject_keys. rewrite E. split; auto. apply get_present. now rewrite E.
    + rewrite cleanObject_get, E. unfold purge. now rewrite Hv.
  - apply requestBody_defined.
Qed.

Lemma C3_purge_witness :
  cleanObject mixed_object = [ ("zero", VNum (Int 0)); ("empty", VStr EmptyString); ("none", VArr []) ]
  /\ (In "zero" (keys (cleanObject mixed_object))
      /\ get "zero" (cleanObject mixed_object) = VNum (Int 0))
  /\ ~ In "null" (keys (cleanObject mixed_object))
  /\ nullish (get "rec" default_body) = false.
Proof.
  destruct C3_purge_removes_only_nullish as (Hclean & Hbody).
  destruct (Hclean mixed_object) as (_ & Hkeys & _ & Hlast).
  split; [reflexivity|]. split; [|split].
  - apply (Hlast mixed_object "zero" (VNum (Int 0))); reflexivity.
  - intros H. apply Hkeys in H. destruct H as [_ H]. discriminate H.
  - apply (Hbody [] [] default_body "rec"); [reflexivity | simpl; auto].
Defined.

(** ** The ecommerce converter (C4, C5) *)

(** C4: the converter maps the list with the single item
    [{item_id:1, item_name:"A", price:9.5, quantity:2, item_category:"X"}] to
    [[["1","A",["X"],9.5,2,undefined,undefined,{}]]]: the id as a string, the
    category levels in order without the falsy ones, price and quantity as
    they are, no brand and no variant, an empty dimension map. *)
Theorem C4_convert_reference_item :
  convertEcommerce example_items
  = VArr [ VArr [ VStr "1"; VStr "A"; VArr [VStr "X"]; VNum (Dec 95 1); VNum (Int 2);
                  VUndefined; VUndefined; VObj [] ] ].
Proof. reflexivity. Qed.

(** C5: a value that is not an array converts to [undefined]; of an array
    exactly the entries that are objects are converted, each to its tuple and
    in order, and the others are dropped.  The converter is a total function:
    no input makes it raise. *)
Theorem C5_convert_rejects_non_arrays :
  (forall v, getType v <> "array" -> convertEcommerce v = VUndefined)
  /\ (forall items,
        convertEcommerce (VArr items) = VArr (map convertItem (filter is_object items)))
  /\ (forall items t,
        In t (elements (convertEcommerce (VArr items)))
        <-> exists item, In item items /\ getType item = "object" /\ t = convertItem item).
Proof.
  split; [|split].
  - intros v Hv. unfold convertEcommerce.
    destruct (String.eqb_spec (getType v) "array"); [contradiction | reflexivity].
  - reflexivity.
  - intros items t. simpl. rewrite in_map_iff. split.
    + intros [item [<- Hin]]. apply filter_In in Hin. destruct Hin as [Hin Hobj].
      exists item. repeat split; auto. now apply String.eqb_eq.
    + intros [item [Hin [Hobj ->]]]. exists item. split; auto.
      apply filter_In. split; auto. unfold is_object. now apply String.eqb_eq.
Qed.

Lemma C5_convert_witness :
  convertEcommerce (VObj [("item_id", VNum (Int 1))]) = VUndefined
  /\ convertEcommerce (VStr "items") = VUndefined
  /\ In (convertItem (VObj [("item_id", VNum (Int 1))]))
        (elements (convertEcommerce
                     (VArr [VStr "junk"; VNull; VObj [("item_id", VNum (Int 1))]; VNum (Int 3)]))).
Proof.
  destruct C5_convert_rejects_non_arrays as (Hnon & _ & Hin).
  split; [|split].
  - apply Hnon. discriminate.
  - apply Hnon. discriminate.
  - apply Hin. exists (VObj [("item_id", VNum (Int 1))]). simpl. auto 6.
Defined.

(** ** The response callback (C9) *)

Lemma onResponse_In (logging : bool) (traceId : value) (rb : obj) (r : response) (a : action) :
  In a (onResponse logging traceId rb r)
  <-> (logging = true /\ a = logResponse traceId rb r)
      \/ a = SetResponseStatus (statusCode r)
      \/ a = SetResponseHeader "cache-control" (get "cache-control" (headers r))
      \/ a = (if statusCode r <? 400 then GtmOnSuccess else GtmOnFailure).
Proof.
  unfold onResponse. rewrite in_app_iff. destruct logging; simpl; intuition congruence.
Qed.

Lemma onResponse_sends_nothing (logging : bool) (traceId : value) (rb : obj) (r : response) :
  requests (onResponse logging traceId rb r) = [].
Proof.
  unfold requests, onResponse. destruct logging, (statusCode r <? 400); reflexivity.
Qed.

Lemma invoke_requests (data eventData : obj) (containerVersion traceHeader : value)
      (r : response) (actions : list action) :
  invoke data eventData containerVersion traceHeader r = Some actions ->
  exists body, requestBody data eventData = Some body
    /\ requests actions
       = [ SendHttpRequest (ENDPOINT data)
             [ ("headers", VObj HEADERS); ("method", VStr "POST"); ("timeout", VNum (Int 1000)) ]
             (postBody body) ].
Proof.
  unfold invoke, requestActions, bind. intros H.
  destruct (requestBody data eventData) as [body|]; [|discriminate].
  injection H as <-. exists body. split; auto.
  unfold requests. rewrite !filter_app, (onResponse_sends_nothing _ _ _ r : filter _ _ = []).
  now destruct (LOGGING_ENABLED data containerVersion).
Qed.

Lemma requestActions_In (data : obj) (logging : bool) (traceId : value) (rb : obj) (a : action) :
  In a (requestActions data logging traceId rb) ->
  a = logRequest data traceId rb
  \/ a = SendHttpRequest (ENDPOINT data)
           [ ("headers", VObj HEADERS); ("method", VStr "POST"); ("timeout", VNum (Int 1000)) ]
           (postBody rb).
Proof.
  unfold requestActions. rewrite in_app_iff. destruct logging; simpl; intuition congruence.
Qed.

(** The actions of an invocation are those of the script up to the request
    and those of the callback. *)
Lemma invoke_In (data eventData : obj) (containerVersion traceHeader : value)
      (r : response) (actions : list action) :
  invoke data eventData containerVersion traceHeader r = Some actions ->
  exists body,
    requestBody data eventData = Some body
    /\ forall a, In a actions <->
         In a (requestActions data (LOGGING_ENABLED data containerVersion)
                 (TRACE_ID data containerVersion traceHeader) body)
         \/ In a (onResponse (LOGGING_ENABLED data containerVersion)
                    (TRACE_ID data containerVersion traceHeader) body r).
Proof.
  unfold invoke, bind. intros H.
  destruct (requestBody data eventData) as [body|]; [|discriminate].
  injection H as <-. exists body. split; auto. intros a. apply in_app_iff.
Qed.

(** C9: an invocation whose request completes with response [r] sets the
    response status to the upstream status code and to no other, sets the
    [cache-control] response header to the upstream one, as it is, and sets
    no other header; it signals success exactly when the status code is
    below 400 and failure exactly otherwise.  These three actions are the
    last of the invocation, after its request, and the invocation makes one
    request only. *)
Theorem C9_response_propagation :
  forall data eventData containerVersion traceHeader r actions,
    invoke data eventData containerVersion traceHeader r = Some actions ->
    (forall code, In (SetResponseStatus code) actions <-> code = statusCode r)
    /\ (forall name v, In (SetResponseHeader name v) actions
                       <-> name = "cache-control" /\ v = get "cache-control" (headers r))
    /\ (In GtmOnSuccess actions <-> statusCode r < 400)
    /\ (In GtmOnFailure actions <-> 400 <= statusCode r)
    /\ (exists before,
          actions
          = (before ++ [ SetResponseStatus (statusCode r);
                         SetResponseHeader "cache-control" (get "cache-control" (headers r));
                         if statusCode r <? 400 then GtmOnSuccess else GtmOnFailure ])%list
          /\ List.length (requests before) = 1%nat)
    /\ List.length (requests actions) = 1%nat.
Proof.
  intros data eventData containerVersion traceHeader r actions H.
  destruct (invoke_In _ _ _ _ _ _ H) as [body [_ Hin]].
  assert (forall a, Cover.is_log a = false -> is_send a = false ->
            (In a actions <->
             a = SetResponseStatus (statusCode r)
             \/ a = SetResponseHeader "cache-control" (get "cache-control" (headers r))
             \/ a = (if statusCode r <? 400 then GtmOnSuccess else GtmOnFailure))) as Hcb.
  { intros a Hl Hs. rewrite Hin, onResponse_In. split.
    - intros [Hr|[[_ ->]|Hc]]; [|discriminate Hl | exact Hc].
      apply requestActions_In in Hr. destruct Hr as [->| ->]; discriminate.
    - auto. }
  split; [|split; [|split; [|split; [|split]]]].
  - intros code. rewrite Hcb by reflexivity.
    destruct (statusCode r <? 400); intuition (try congruence); subst; auto.
  - intros name v. rewrite Hcb by reflexivity.
    destruct (statusCode r <? 400); intuition (try congruence); subst; auto.
  - rewrite Hcb by reflexivity.
    destruct (Z.ltb_spec (statusCode r) 400); intuition (try congruence); lia.
  - rewrite Hcb by reflexivity.
    destruct (Z.ltb_spec (statusCode r) 400); intuition (try congruence); lia.
  - unfold invoke, bind in H. destruct (requestBody data eventData) as [rb|]; [|discriminate].
    injection H as <-. unfold requestActions, onResponse, requests.
    destruct (LOGGING_ENABLED data containerVersion);
      (eexists; rewrite !app_assoc; split; reflexivity).
  - destruct (invoke_requests _ _ _ _ _ _ H) as [rb [_ ->]]. reflexivity.
Qed.

Lemma C9_response_witness :
  match invoke override_data override_event VUndefined VUndefined
          (Response 404 [("cache-control", VStr "no-store")] (VStr "gone")) with
  | Some actions =>
      In GtmOnFailure actions /\ ~ In GtmOnSuccess actions
      /\ In (SetResponseStatus 404) actions
      /\ In (SetResponseHeader "cache-control" (VStr "no-store")) actions
  | None => False
  end.
Proof.
  destruct (invoke override_data override_event VUndefined VUndefined
              (Response 404 [("cache-control", VStr "no-store")] (VStr "gone")))
    as [actions|] eqn:E; [|discriminate E].
  destruct (C9_response_propagation _ _ _ _ _ _ E) as (Hs & Hh & Hok & Hko & _).
  split; [|split; [|split]].
  - apply (proj2 Hko). simpl. lia.
  - intros Hin. apply (proj1 Hok) in Hin. simpl in Hin. lia.
  - apply (proj2 (Hs 404)). reflexivity.
  - apply (proj2 (Hh "cache-control" (VStr "no-store"))). split; reflexivity.
Defined.

(** ** Serialization *)

Lemma append_nonempty_r (a b : string) : b <> EmptyString -> (a ++ b)%string <> EmptyString.
Proof. destruct a; simpl; [auto | discriminate]. Qed.

Lemma Z_to_string_nonempty (z : Z) : Z_to_string z <> EmptyString.
Proof.
  unfold Z_to_string. destruct (Z.to_int z) as [d|d]; simpl; [|discriminate].
  unfold NilZero.string_of_uint. destruct d; simpl; discriminate.
Qed.

Lemma number_to_string_nonempty (n : number) : number_to_string n <> EmptyString.
Proof.
  destruct n as [|m e]; simpl; [discriminate|].
  destruct (strip_zeros m e) as [m' [|e']].
  - apply Z_to_string_nonempty.
  - do 2 apply append_nonempty_r. discriminate.
Qed.

Lemma stringify_nonempty (v : value) (t : string) : stringify v = Some t -> t <> EmptyString.
Proof.
  destruct v as [| |[]|n|s|l|o]; simpl; intros H; try discriminate;
    injection H as <-; try discriminate.
  destruct n; simpl; [discriminate | apply (number_to_string_nonempty (Dec m e))].
Qed.

(** A serialization is [undefined] or a non-empty string, never empty text. *)
Lemma JSON_stringify_truthy (v : value) :
  truthy (JSON_stringify v) = is_nonempty_string (JSON_stringify v)
  /\ (is_nonempty_string (JSON_stringify v) = false -> JSON_stringify v = VUndefined).
Proof.
  unfold JSON_stringify. destruct (stringify v) as [t|] eqn:E; simpl; auto.
  apply stringify_nonempty in E. destruct t; [contradiction | auto]. split; [reflexivity | discriminate].
Qed.

Lemma JSON_stringify_array (items : list value) : truthy (JSON_stringify (VArr items)) = true.
Proof. reflexivity. Qed.

(** ** The products parameter (C6) *)

Lemma or_else_first_serialized (a b c : value) :
  or_else (or_else (JSON_stringify a) (JSON_stringify b)) (JSON_stringify c)
  = first_serialized [a; b; c].
Proof.
  unfold first_serialized, or_else. simpl.
  destruct (JSON_stringify_truthy a) as [Ta Ua].
  destruct (JSON_stringify_truthy b) as [Tb Ub].
  destruct (JSON_stringify_truthy c) as [Tc Uc].
  rewrite Ta. destruct (is_nonempty_string (JSON_stringify a)) eqn:Ea.
  - now rewrite Ta.
  - rewrite Tb. destruct (is_nonempty_string (JSON_stringify b)) eqn:Eb; auto.
    destruct (is_nonempty_string (JSON_stringify c)) eqn:Ec; auto.
Qed.

Lemma literal_get_ec_products (data eventData lit : obj) :
  uiParamMap_literal data eventData = Some lit ->
  get "ec_products" lit
  = or_else (or_else (JSON_stringify (convertEcommerce (get "ec_products" data)))
                     (JSON_stringify (get "x-pp-ec_products" eventData)))
            (JSON_stringify (convertEcommerce (get "items" eventData))).
Proof.
  unfold uiParamMap_literal, bind. intros H.
  destruct (if truthy (get "search_cats" data) then _ else _); [|discriminate].
  destruct (if truthy (get "_id" data) then _ else _); [|discriminate].
  injection H as <-. reflexivity.
Qed.

Lemma purge_first_serialized (cs : list value) :
  purge (first_serialized cs) = first_serialized cs.
Proof.
  unfold first_serialized, purge.
  destruct (find _ cs) as [c|]; auto.
  unfold JSON_stringify. now destruct (stringify c).
Qed.

(** C6: [ec_products] is chosen among three candidates in a fixed order: the
    configured product list converted, the event's [x-pp-ec_products] as it
    is, the event's [items] converted; the parameter is the serialization of
    the first candidate that serializes to a non-empty string, in the UI map
    and, unless an Additional Parameters row rewrites the key, in the final
    parameter set. *)
Theorem C6_ec_products_first_candidate :
  forall data eventData : obj,
    (forall lit, uiParamMap_literal data eventData = Some lit ->
       get "ec_products" lit = first_serialized (ec_products_candidates data eventData))
    /\ (forall body, requestBody data eventData = Some body ->
          overridden data "ec_products" = false ->
          get "ec_products" body = first_serialized (ec_products_candidates data eventData)).
Proof.
  intros data eventData. split.
  - intros lit H. rewrite (literal_get_ec_products _ _ _ H).
    apply or_else_first_serialized.
  - intros body H Hov. destruct (requestBody_literal _ _ _ H) as [lit [Hlit Hget]].
    rewrite (Hget "ec_products") by (auto; unfold literal_keys; simpl; tauto).
    rewrite (literal_get_ec_products _ _ _ Hlit), or_else_first_serialized.
    apply purge_first_serialized.
Qed.

Lemma C6_ec_products_witness :
  get "ec_products" (run products_data products_event)
  = JSON_stringify (VArr [VArr [VStr "sku-1"; VStr "Shirt"]]).
Proof.
  destruct (C6_ec_products_first_candidate products_data products_event) as [_ H].
  rewrite (H (run products_data products_event)); reflexivity.
Defined.

(** ** The Additional Parameters pass (C7) *)

Lemma last_of_unique {A B : Type} (f : A -> B) (before after : list A) (x : A) :
  NoDup (map f (before ++ x :: after)%list) -> forall y, In y after -> f y <> f x.
Proof.
  rewrite map_app. simpl. intros H y Hy E. apply NoDup_remove_2 in H. apply H.
  apply in_or_app. right. rewrite <- E. now apply in_map.
Qed.

(** The row that writes a key last decides the value of the key in the map,
    whatever the map held before the pass. *)
Lemma additionalParameters_last (data ui ui' : obj) (before after : list value) (param : value) :
  additionalParameters data ui = Some ui' ->
  rows data "additionalParameters" = (before ++ param :: after)%list ->
  (forall y, In y after -> param_key y <> param_key param) ->
  get (param_key param) ui' = prop param "value".
Proof.
  intros H Hrows Hafter. apply additionalParameters_rows in H. rewrite Hrows in H.
  now apply (loopM_get_last _ _ _ additional_step (param_key param) before after param ui ui').
Qed.




(** ** The library identity (C8) *)

(** C8, as the code has it: [ts_n] and [ts_v] are always in the final
    parameter set with the constant name and version of the library; no
    source changes them, neither the configuration's fields, nor the event,
    nor the Additional Parameters table, whose rows are applied before the
    two fields are written. *)
Theorem C8_library_identity_fixed :
  forall data eventData body,
    requestBody data eventData = Some body ->
    get "ts_n" body = VStr "sgtm" /\ get "ts_v" body = VStr "1.0.3"
    /\ In "ts_n" (keys body) /\ In "ts_v" (keys body).
Proof.
  intros data eventData body H. unfold requestBody, bind in H.
  destruct (uiParamMap data eventData) as [ui|]; [|discriminate].
  injection H as <-.
  destruct (body_library eventData ui) as [Hn Hv].
  repeat split; auto; apply get_present; [rewrite Hn | rewrite Hv]; reflexivity.
Qed.

Lemma C8_library_identity_witness :
  get "ts_n" (run library_data vendor_event) = VStr "sgtm"
  /\ get "ts_v" (run library_data vendor_event) = VStr "1.0.3".
Proof.
  destruct (C8_library_identity_fixed library_data vendor_event (run library_data vendor_event))
    as (Hn & Hv & _); [reflexivity | auto].
Defined.

(** C8, as stated, fails: rows of the Additional Parameters table that set
    [ts_n] and [ts_v] leave both fields at the library's constants. *)
Lemma C8_free_form_cannot_override :
  overridden library_data "ts_n" = true
  /\ overridden library_data "ts_v" = true
  /\ option_map (get "ts_n") (requestBody library_data []) = Some (VStr "sgtm")
  /\ option_map (get "ts_v") (requestBody library_data []) = Some (VStr "1.0.3").
Proof. repeat split. Qed.

(** ** The vendor-prefixed event fields (C10) *)

(** C10, as the code has it: the value of every event key that starts with
    [x-pp-] is written to the request body under the key without the prefix,
    before the UI map is applied.  In the final parameter set the key holds
    the value of the UI map when the map has that key, and otherwise the
    event's value, both subject to the purge; the keys [ts_n] and [ts_v] are
    excepted, they always hold the library's constants. *)
Theorem C10_vendor_passthrough :
  forall (data eventData ui : obj) (key : string),
    uiParamMap data eventData = Some ui ->
    In key (keys eventData) ->
    take 5 key = "x-pp-" ->
    requestBody data eventData = Some (buildRequestBody eventData ui)
    /\ replace_first "x-pp-" EmptyString key = drop 5 key
    /\ get (drop 5 key) (passthrough eventData) = get key eventData
    /\ (drop 5 key <> "ts_n" -> drop 5 key <> "ts_v" ->
        get (drop 5 key) (buildRequestBody eventData ui)
        = purge (if has (drop 5 key) ui then get (drop 5 key) ui else get key eventData)).
Proof.
  intros data eventData ui key Hui Hin Hp. repeat split.
  - unfold requestBody, bind. now rewrite Hui.
  - now apply strip_vendor_prefix.
  - now apply passthrough_get.
  - intros Hn Hv. rewrite body_get by auto. now rewrite passthrough_get.
Qed.

Lemma C10_vendor_passthrough_witness :
  get "cs" (run [] vendor_event) = VStr "utf-8"
  /\ get "ua" (run [] vendor_event) = VUndefined
  /\ get "gone" (run [] vendor_event) = VUndefined.
Proof.
  assert (exists ui, uiParamMap [] vendor_event = Some ui) as [ui Hui] by (eexists; reflexivity).
  assert (run [] vendor_event = buildRequestBody vendor_event ui) as ->.
  { unfold run, requestBody, bind. now rewrite Hui. }
  assert (has "cs" ui = false /\ has "ua" ui = true /\ get "ua" ui = VUndefined
          /\ has "gone" ui = false) as (Hcs & Hua & Hgua & Hgone).
  { vm_compute in Hui. injection Hui as <-. repeat split. }
  split; [|split].
  - destruct (C10_vendor_passthrough [] vendor_event ui "x-pp-cs" Hui) as (_ & _ & _ & H);
      [simpl; auto | reflexivity |].
    change (drop 5 "x-pp-cs") with "cs" in H.
    rewrite H by discriminate. now rewrite Hcs.
  - destruct (C10_vendor_passthrough [] vendor_event ui "x-pp-ua" Hui) as (_ & _ & _ & H);
      [simpl; auto | reflexivity |].
    change (drop 5 "x-pp-ua") with "ua" in H.
    rewrite H by discriminate. now rewrite Hua, Hgua.
  - destruct (C10_vendor_passthrough [] vendor_event ui "x-pp-gone" Hui) as (_ & _ & _ & H);
      [simpl; auto 6 | reflexivity |].
    change (drop 5 "x-pp-gone") with "gone" in H.
    rewrite H by discriminate. now rewrite Hgone.
Defined.

(** C10, as stated, fails: the event field [x-pp-ts_n] is neither null nor
    overwritten by a key of the UI map, and still it does not reach the
    request, whose [ts_n] is the library's name. *)
Lemma C10_library_keys_not_passed :
  In "x-pp-ts_n" (keys vendor_event)
  /\ nullish (get "x-pp-ts_n" vendor_event) = false
  /\ option_map (has "ts_n") (uiParamMap [] vendor_event) = Some false
  /\ get "ts_n" (passthrough vendor_event) = VStr "custom"
  /\ option_map (get "ts_n") (requestBody [] vendor_event) = Some (VStr "sgtm").
Proof. repeat split. simpl. auto. Qed.

(** ** The object literal of the UI map (C1, C2) *)

Lemma literal_inv (data eventData lit : obj) :
  uiParamMap_literal data eventData = Some lit ->
  exists search_cats _id,
    (if truthy (get "search_cats" data) then stringToArrayAndTrim (get "search_cats" data)
     else Some (get "x-pp-search_cats" eventData)) = Some search_cats
    /\ (if truthy (get "_id" data) then Some (get "_id" data)
        else getClientIdHash eventData) = Some _id
    /\ get "search_cats" lit = JSON_stringify search_cats
    /\ get "_id" lit = _id
    /\ get "search_count" lit
       = (if truthy (get "search_count" data) then VNum (makeNumber (get "search_count" data))
          else get "x-pp-search_count" eventData)
    /\ get "uia" lit
       = (if is_str (get "anonymous" data) "uia" then VNum (Int 1)
          else or_else (get "x-pp-uia" eventData) (VNum (Int 0)))
    /\ get "rmip" lit
       = (if is_str (get "anonymous" data) "rmip" then VNum (Int 1)
          else or_else (get "x-pp-rmip" eventData) (VNum (Int 0))).
Proof.
  unfold uiParamMap_literal, bind. intros H.
  destruct (if truthy (get "search_cats" data) then _ else _) as [sc|]; [|discriminate].
  destruct (if truthy (get "_id" data) then _ else _) as [id|]; [|discriminate].
  injection H as <-. exists sc, id. repeat split.
Qed.

Lemma convertEcommerce_array (items : list value) :
  convertEcommerce (VArr items) = VArr (map convertItem (filter is_object items)).
Proof. reflexivity. Qed.

Lemma or_else_truthy (a b : value) : truthy a = true -> or_else a b = a.
Proof. unfold or_else. now intros ->. Qed.

Lemma truthy_not_nullish (v : value) : truthy v = true -> nullish v = false.
Proof. now destruct v. Qed.

Lemma purge_truthy (v : value) : truthy v = true -> purge v = v.
Proof. intros H. unfold purge. now rewrite (truthy_not_nullish v H). Qed.

Lemma direct_fields_literal (field cfg : string) :
  In (field, cfg) direct_fields -> In field literal_keys.
Proof.
  unfold direct_fields, literal_keys. intros H.
  repeat (destruct H as [H|H]; [injection H as <- <-; simpl; tauto|]).
  destruct H.
Qed.

(** A truthy value of a text field of the configuration is the value of its
    parameter in the object literal. *)
Lemma literal_direct (data eventData lit : obj) (field cfg : string) :
  uiParamMap_literal data eventData = Some lit ->
  In (field, cfg) direct_fields ->
  truthy (get cfg data) = true ->
  get field lit = get cfg data.
Proof.
  intros Hlit Hin Ht.
  unfold uiParamMap_literal, bind in Hlit.
  destruct (if truthy (get "search_cats" data) then _ else _) as [sc|]; [|discriminate].
  destruct (truthy (get "_id" data)) eqn:Hid.
  - injection Hlit as <-. unfold direct_fields in Hin.
    repeat (destruct Hin as [Hin|Hin];
            [injection Hin as <- <-;
             cbn [get String.eqb Ascii.eqb Bool.eqb];
             rewrite ?(or_else_truthy _ _ Ht); rewrite ?(or_else_truthy _ _ Ht); reflexivity|]).
    destruct Hin.
  - destruct (getClientIdHash eventData) as [id|]; [|discriminate].
    injection Hlit as <-. unfold direct_fields in Hin.
    repeat (destruct Hin as [Hin|Hin];
            [injection Hin as <- <-;
             cbn [get String.eqb Ascii.eqb Bool.eqb];
             rewrite ?(or_else_truthy _ _ Ht); rewrite ?(or_else_truthy _ _ Ht);
             try reflexivity; congruence|]).
    destruct Hin.
Qed.

(** C1, as the code has it: a text field of the configuration that holds a
    truthy (present, non-empty) value gives its parameter that very value,
    in the UI map and, unless a row of the Additional Parameters table
    rewrites the key, in the final parameter set; the fields the map converts
    are derived from the configuration's value alone: [search_count] is that
    value as a number, [search_cats] the serialized list of its
    comma-separated, trimmed parts, [ec_products] the serialized conversion
    of the configured array, [uia] and [rmip] are 1 when the anonymous mode
    names them.  In none of these cases does a value of the event enter, and
    each parameter of the map reaches the final parameter set, purged, unless
    a row of the Additional Parameters table rewrites its key. *)
Theorem C1_configuration_precedence :
  forall data eventData lit body,
    uiParamMap_literal data eventData = Some lit ->
    requestBody data eventData = Some body ->
    (forall field cfg, In (field, cfg) direct_fields -> truthy (get cfg data) = true ->
       get field lit = get cfg data
       /\ (overridden data field = false -> get field body = get cfg data))
    /\ (truthy (get "search_count" data) = true ->
        get "search_count" lit = VNum (makeNumber (get "search_count" data)))
    /\ (forall s, get "search_cats" data = VStr s -> s <> EmptyString ->
        get "search_cats" lit
        = JSON_stringify (VArr (map (fun item => VStr (trim item)) (split_on "," s))))
    /\ (forall items, get "ec_products" data = VArr items ->
        get "ec_products" lit = JSON_stringify (convertEcommerce (VArr items)))
    /\ (get "anonymous" data = VStr "uia" -> get "uia" lit = VNum (Int 1))
    /\ (get "anonymous" data = VStr "rmip" -> get "rmip" lit = VNum (Int 1))
    /\ (forall k, In k literal_keys -> overridden data k = false ->
        get k body = purge (get k lit)).
Proof.
  intros data eventData lit body Hlit Hbody.
  destruct (literal_inv _ _ _ Hlit) as (sc & id & Hsc & Hid & Gsc & Gid & Gcount & Guia & Grmip).
  split; [|split; [|split; [|split; [|split; [|split]]]]].
  - intros field cfg Hin Ht.
    pose proof (literal_direct _ _ _ _ _ Hlit Hin Ht) as Hget. split; auto.
    intros Hov. destruct (requestBody_literal _ _ _ Hbody) as [lit' [Hlit' Hres]].
    assert (lit' = lit) as -> by congruence.
    rewrite (Hres field (direct_fields_literal _ _ Hin) Hov), Hget.
    now apply purge_truthy.
  - intros Ht. now rewrite Gcount, Ht.
  - intros s Hs Hne. rewrite Gsc. rewrite Hs in Hsc. simpl in Hsc.
    destruct (String.eqb_spec s EmptyString); [contradiction|]. simpl in Hsc. congruence.
  - intros items Hitems. rewrite (literal_get_ec_products _ _ _ Hlit), Hitems.
    rewrite convertEcommerce_array.
    now rewrite (or_else_truthy _ (JSON_stringify (get "x-pp-ec_products" eventData))),
      or_else_truthy.
  - intros Ha. now rewrite Guia, Ha.
  - intros Ha. now rewrite Grmip, Ha.
  - intros k Hk Hov. destruct (requestBody_literal _ _ _ Hbody) as [lit' [Hlit' Hres]].
    assert (lit' = lit) as -> by congruence. now apply Hres.
Qed.

Lemma C1_configuration_witness :
  get "url" (run search_data search_event) = VStr "https://shop.example/search"
  /\ get "search_count" (run_literal search_data search_event) = VNum (Int 5)
  /\ get "search_cats" (run_literal search_data search_event)
     = JSON_stringify (VArr [VStr "shoes"; VStr "boots"])
  /\ get "uia" (run_literal search_data search_event) = VNum (Int 1).
Proof.
  destruct (C1_configuration_precedence search_data search_event
              (run_literal search_data search_event) (run search_data search_event)
              eq_refl eq_refl) as (Hdirect & Hcount & Hcats & _ & Huia & _ & _).
  split; [|split; [|split]].
  - apply (Hdirect "url" "url"); [simpl; tauto | reflexivity | reflexivity].
  - now apply Hcount.
  - apply (Hcats "shoes, boots"); [reflexivity | discriminate].
  - now apply Huia.
Defined.

(** C1, as stated, fails: the configured search categories and the
    configured result count are present and non-empty, yet the resolved
    parameters are not those values but what the map makes of them. *)
Lemma C1_converted_fields_differ :
  truthy (get "search_cats" search_data) = true
  /\ truthy (get "search_count" search_data) = true
  /\ option_map (get "search_cats") (requestBody search_data search_event)
     = Some (JSON_stringify (VArr [VStr "shoes"; VStr "boots"]))
  /\ JSON_stringify (VArr [VStr "shoes"; VStr "boots"]) <> get "search_cats" search_data
  /\ option_map (get "search_count") (requestBody search_data search_event)
     = Some (VNum (Int 5))
  /\ VNum (Int 5) <> get "search_count" search_data
  /\ option_map (get "uia") (requestBody search_data search_event) = Some (VNum (Int 1))
  /\ VNum (Int 1) <> get "anonymous" search_data.
Proof. repeat split; discriminate. Qed.

Lemma getClientIdHash_defined (eventData : obj) (id : value) :
  getClientIdHash eventData = Some id -> nullish id = true -> id = VUndefined.
Proof.
  unfold getClientIdHash, bind.
  destruct (truthy (get "client_id" eventData)) eqn:Ht; simpl.
  - destruct (testRegex_hex16 (get "client_id" eventData)).
    + intros H Hn. injection H as <-. apply truthy_not_nullish in Ht. congruence.
    + destruct (sha256Sync _); [|discriminate]. intros H Hn. injection H as <-. discriminate.
  - congruence.
Qed.

(** C2, as the code has it: the visitor id is the configured [_id] whenever
    that value is truthy; the code does not test it against the pattern,
    which only the input form of the field enforces.  Otherwise a client
    identifier of the event that already matches
    [^[0-9a-fA-F]{16}$] is the visitor id as it is, and one that does not
    match gives the first 16 hexadecimal characters of its SHA-256 digest, a
    function of the identifier alone.  With no configured value and no client
    identifier the field is absent from the final parameter set. *)
Theorem C2_visitor_id :
  forall data eventData lit,
    uiParamMap_literal data eventData = Some lit ->
    (truthy (get "_id" data) = true -> get "_id" lit = get "_id" data)
    /\ (truthy (get "_id" data) = false ->
        forall cid, get "client_id" eventData = VStr cid -> cid <> EmptyString ->
          get "_id" lit = if testRegex_hex16 (VStr cid) then VStr cid
                          else VStr (substring 0 16 (Sha256.hex cid)))
    /\ (truthy (get "_id" data) = false -> truthy (get "client_id" eventData) = false ->
        get "_id" lit = VUndefined)
    /\ (forall body, requestBody data eventData = Some body ->
          overridden data "_id" = false ->
          get "_id" body = get "_id" lit
          /\ (get "_id" lit = VUndefined -> ~ In "_id" (keys body))).
Proof.
  intros data eventData lit Hlit.
  destruct (literal_inv _ _ _ Hlit) as (sc & id & _ & Hid & _ & Gid & _).
  split; [|split; [|split]].
  - intros Ht. rewrite Ht in Hid. congruence.
  - intros Ht cid Hcid Hne. rewrite Ht in Hid. unfold getClientIdHash, bind in Hid.
    rewrite Hcid in Hid.
    assert (truthy (VStr cid) = true) as Hc.
    { cbn [truthy]. now destruct (String.eqb_spec cid EmptyString). }
    rewrite Hc in Hid. cbn [negb sha256Sync] in Hid.
    destruct (testRegex_hex16 (VStr cid)); congruence.
  - intros Ht Hc. rewrite Ht in Hid. unfold getClientIdHash in Hid. rewrite Hc in Hid.
    cbn [negb] in Hid. congruence.
  - intros body Hbody Hov.
    destruct (requestBody_literal _ _ _ Hbody) as [lit' [Hlit' Hres]].
    assert (lit' = lit) as -> by congruence.
    assert (get "_id" body = get "_id" lit) as E.
    { rewrite (Hres "_id") by (auto; unfold literal_keys; simpl; tauto).
      unfold purge. destruct (nullish (get "_id" lit)) eqn:Hn; auto.
      rewrite Gid in *. destruct (truthy (get "_id" data)) eqn:Ht.
      - injection Hid as <-. apply truthy_not_nullish in Ht. congruence.
      - symmetry. now apply (getClientIdHash_defined eventData). }
    split; auto. intros Hu Hin.
    pose proof (requestBody_defined _ _ _ _ Hbody Hin) as Hn.
    rewrite E, Hu in Hn. discriminate.
Qed.

Lemma C2_visitor_id_witness :
  get "_id" (run [] hashed_event) = VStr "ba7816bf8f01cfea"
  /\ get "_id" (run visitor_data visitor_event) = VStr "visitor-1"
  /\ ~ In "_id" (keys (run [] [])).
Proof.
  split; [|split].
  - destruct (C2_visitor_id [] hashed_event (run_literal [] hashed_event) eq_refl)
      as (_ & Hhash & _ & Hbody).
    destruct (Hbody (run [] hashed_event) eq_refl eq_refl) as [-> _].
    rewrite (Hhash eq_refl "abc" eq_refl); [vm_compute; reflexivity | discriminate].
  - destruct (C2_visitor_id visitor_data visitor_event
                (run_literal visitor_data visitor_event) eq_refl) as (Hcfg & _ & _ & Hbody).
    destruct (Hbody (run visitor_data visitor_event) eq_refl eq_refl) as [-> _].
    now rewrite Hcfg.
  - destruct (C2_visitor_id [] [] (run_literal [] []) eq_refl) as (_ & _ & Hnone & Hbody).
    destruct (Hbody (run [] []) eq_refl eq_refl) as [_ Habsent].
    apply Habsent. now apply Hnone.
Defined.

(** C2, as stated, fails: a configured [_id] that does not match the pattern
    is still the visitor id, and the client identifier of the event, which
    does not match either, is not hashed. *)
Lemma C2_configured_id_not_tested :
  testRegex_hex16 (get "_id" visitor_data) = false
  /\ testRegex_hex16 (get "client_id" visitor_event) = false
  /\ option_map (get "_id") (requestBody visitor_data visitor_event)
     = Some (get "_id" visitor_data)
  /\ get "_id" visitor_data <> VStr (substring 0 16 (Sha256.hex "GA1.2.3")).
Proof.
  repeat split; try (vm_compute; reflexivity). vm_compute. discriminate.
Qed.

(** * Further properties of the template *)

Import Cover.

(** ** Objects: keys stay unique *)

Lemma set_absent (k : string) (v : value) (o : obj) :
  ~ In k (keys o) -> set k v o = (o ++ [(k, v)])%list.
Proof.
  unfold keys. induction o as [|[k0 v0] rest IH]; simpl; intros Hn; auto.
  destruct (String.eqb_spec k k0) as [->|Hne]; [tauto|].
  f_equal. apply IH. tauto.
Qed.

Lemma keys_set_present (k : string) (v : value) (o : obj) :
  In k (keys o) -> keys (set k v o) = keys o.
Proof.
  unfold keys. induction o as [|[k0 v0] rest IH]; simpl; intros Hin; [contradiction|].
  destruct (String.eqb_spec k k0) as [->|Hne]; simpl; auto.
  f_equal. apply IH. destruct Hin; congruence.
Qed.

Lemma set_NoDup (k : string) (v : value) (o : obj) :
  NoDup (keys o) -> NoDup (keys (set k v o)).
Proof.
  intros H. destruct (in_dec string_dec k (keys o)) as [Hin|Hn].
  - now rewrite keys_set_present.
  - rewrite (set_absent k v o Hn). unfold keys. rewrite map_app. simpl.
    apply NoDup_app; auto.
    + repeat constructor. simpl. tauto.
    + intros x Hx [<-|[]]. contradiction.
Qed.

Lemma get_unique (k : string) (v : value) (o : obj) :
  NoDup (keys o) -> In (k, v) o -> get k o = v.
Proof.
  unfold keys. induction o as [|[k0 v0] rest IH]; simpl; intros Hnd Hin; [contradiction|].
  inversion Hnd as [|? ? Hk0 Hrest]; subst.
  destruct Hin as [E|Hin].
  - injection E as -> ->. now rewrite String.eqb_refl.
  - destruct (String.eqb_spec k k0) as [->|Hne]; auto.
    exfalso. apply Hk0. change k0 with (fst (k0, v)). now apply in_map.
Qed.

Section AssignLoopKeys.

Context {A : Type}.
Variable step : obj -> A -> obj.
Variable c : A -> bool.
Variable f : A -> string.
Variable g : A -> value.
Hypothesis step_eq : forall o x, step o x = if c x then set (f x) (g x) o else o.

Lemma loop_NoDup (xs : list A) (o : obj) :
  NoDup (keys o) -> NoDup (keys (fold_left step xs o)).
Proof.
  revert o. induction xs as [|x xs IH]; simpl; intros o H; auto.
  apply IH. rewrite step_eq. destruct (c x); auto using set_NoDup.
Qed.

End AssignLoopKeys.

Section AssignLoopMKeys.

Context {A : Type}.
Variable step : obj -> A -> option obj.
Variable f : A -> string.
Variable g : A -> value.
Hypothesis step_eq : forall o x o', step o x = Some o' -> o' = set (f x) (g x) o.

Lemma loopM_keys (k : string) (xs : list A) (o o' : obj) :
  foldM step xs o = Some o' ->
  (In k (keys o') <-> In k (keys o) \/ exists x, In x xs /\ f x = k).
Proof.
  revert o. induction xs as [|x xs IH]; simpl; intros o H.
  - injection H as <-. split; [auto | intros [H|[x [[] _]]]; auto].
  - unfold bind in H. destruct (step o x) as [s|] eqn:Hs; [|discriminate].
    rewrite (IH s H), (step_eq _ _ _ Hs), keys_set. split.
    + intros [[->|Hin]|[y [Hy Hf]]]; eauto.
    + intros [Hin|[y [[->|Hy] Hf]]]; eauto.
Qed.

Lemma loopM_NoDup (xs : list A) (o o' : obj) :
  foldM step xs o = Some o' -> NoDup (keys o) -> NoDup (keys o').
Proof.
  revert o. induction xs as [|x xs IH]; simpl; intros o H Hnd.
  - now injection H as <-.
  - unfold bind in H. destruct (step o x) as [s|] eqn:Hs; [|discriminate].
    apply (IH s H). rewrite (step_eq _ _ _ Hs). now apply set_NoDup.
Qed.

End AssignLoopMKeys.

(** ** The purge keeps the order *)

Lemma cleanObject_NoDup (o : obj) : NoDup (keys (cleanObject o)).
Proof.
  unfold cleanObject.
  apply (loop_NoDup _ (fun k => negb (nullish (get k o))) (fun k => k) (fun k => get k o)).
  - reflexivity.
  - constructor.
Qed.

Lemma purge_loop (o : obj) (ks : list string) (t : obj) :
  NoDup ks -> (forall k, In k ks -> ~ In k (keys t)) ->
  fold_left (fun target k => if negb (nullish (get k o)) then set k (get k o) target else target)
            ks t
  = (t ++ filter defined (map (fun k => (k, get k o)) ks))%list.
Proof.
  revert t. induction ks as [|k ks IH]; simpl; intros t Hnd Hdis.
  - now rewrite app_nil_r.
  - inversion Hnd as [|? ? Hk Hks]; subst. unfold defined at 1. simpl.
    destruct (nullish (get k o)) eqn:E; simpl.
    + apply IH; auto.
    + rewrite (set_absent k (get k o) t) by auto.
      rewrite IH; auto.
      * now rewrite <- app_assoc.
      * intros k' Hk'. unfold keys. rewrite map_app, in_app_iff. simpl.
        intros [Hin|[<-|[]]]; [apply (Hdis k'); auto | contradiction].
Qed.

Lemma entries_of_keys (o : obj) :
  NoDup (keys o) -> map (fun k => (k, get k o)) (keys o) = o.
Proof.
  intros Hnd. unfold keys. rewrite map_map.
  rewrite <- (map_id o) at 2. apply map_ext_in.
  intros [k v] Hin. simpl. now rewrite (get_unique k v o Hnd Hin).
Qed.

Lemma cleanObject_filter (o : obj) :
  NoDup (keys o) -> cleanObject o = filter defined o.
Proof.
  intros Hnd. unfold cleanObject.
  rewrite (purge_loop o (keys o) []); auto.
  now rewrite entries_of_keys.
Qed.

Lemma filter_all {A : Type} (p : A -> bool) (l : list A) :
  (forall x, In x l -> p x = true) -> filter p l = l.
Proof.
  induction l as [|x l IH]; simpl; intros H; auto.
  rewrite (H x) by auto. f_equal. apply IH. auto.
Qed.

Lemma body_clean (k : string) (o : obj) :
  In k (keys (cleanObject o)) -> negb (nullish (get k (cleanObject o))) = true.
Proof.
  intros H. apply cleanObject_keys in H. destruct H as [_ H].
  rewrite cleanObject_get. unfold purge. rewrite H. now rewrite H.
Qed.

(** X1: the purge keeps the surviving properties of an object in their
    order, dropping the null and undefined ones where they stand; its result
    has each key once, and purging a second time changes nothing. *)
Theorem X1_purge_keeps_order :
  (forall o, NoDup (keys o) -> cleanObject o = filter defined o)
  /\ (forall o, NoDup (keys (cleanObject o)))
  /\ (forall o, cleanObject (cleanObject o) = cleanObject o).
Proof.
  split; [|split].
  - apply cleanObject_filter.
  - apply cleanObject_NoDup.
  - intros o. rewrite (cleanObject_filter (cleanObject o)) by apply cleanObject_NoDup.
    apply filter_all. intros [k v] Hin. unfold defined. simpl.
    rewrite <- (get_unique k v (cleanObject o) (cleanObject_NoDup o) Hin).
    rewrite (body_clean k o); auto.
    unfold keys. change k with (fst (k, v)). now apply in_map.
Qed.

Lemma X1_purge_order_witness :
  cleanObject [ ("b", VNum (Int 2)); ("gone", VNull); ("a", VStr "x") ]
  = [ ("b", VNum (Int 2)); ("a", VStr "x") ].
Proof.
  destruct X1_purge_keeps_order as [H _]. rewrite H; [reflexivity|].
  simpl. repeat constructor; simpl; intuition discriminate.
Defined.

(** ** The stages of the UI map *)

Lemma customDims_rows (data ui ui' : obj) :
  customDims data ui = Some ui' ->
  foldM (fun ui dim =>
           index <- member dim "index" ;; v <- member dim "value" ;;
           Some (set ("dimension" ++ to_string index) v ui))
        (rows data "custom_dims") ui = Some ui'.
Proof.
  unfold customDims, rows. intros H. apply forEach_elements in H.
  now rewrite elements_or_empty in H.
Qed.

Lemma uiParamMap_stages (data eventData ui : obj) :
  uiParamMap data eventData = Some ui ->
  exists lit ui1 cv scv,
    uiParamMap_literal data eventData = Some lit
    /\ customDims data (commonParams eventData lit) = Some ui1
    /\ cvarParam (get "cvars_event" data) (get "x-pp-cvar" eventData) = Some cv
    /\ cvarParam (get "cvars_session" data) (get "x-pp-_cvar" eventData) = Some scv
    /\ additionalParameters data (set "_cvar" scv (set "cvar" cv ui1)) = Some ui.
Proof.
  unfold uiParamMap, bind. intros H.
  destruct (uiParamMap_literal data eventData) as [lit|] eqn:Hlit; [|discriminate].
  destruct (customDims data (commonParams eventData lit)) as [ui1|] eqn:Hd; [|discriminate].
  destruct (cvarParam (get "cvars_event" data) _) as [cv|] eqn:Hcv; [|discriminate].
  destruct (cvarParam (get "cvars_session" data) _) as [scv|] eqn:Hscv; [|discriminate].
  exists lit, ui1, cv, scv. repeat split; auto.
Qed.

Lemma requestBody_inv (data eventData body : obj) :
  requestBody data eventData = Some body ->
  exists ui, uiParamMap data eventData = Some ui /\ body = buildRequestBody eventData ui.
Proof.
  unfold requestBody, bind. intros H.
  destruct (uiParamMap data eventData) as [ui|]; [|discriminate].
  injection H as <-. eauto.
Qed.

Lemma dim_key_prefix (dim : value) : take 9 (dim_key dim) = "dimension".
Proof. apply take_dimension. Qed.

Lemma late_key_facts (k : string) :
  In k late_keys -> k <> "ts_n" /\ k <> "ts_v" /\ take 9 k <> "dimension" /\ ~ In k literal_keys.
Proof.
  unfold late_keys. intros H.
  repeat (destruct H as [<-|H];
          [repeat split; try (intros E; vm_compute in E; discriminate);
           unfold literal_keys; simpl; intuition discriminate|]).
  destruct H.
Qed.

(** The keys of the UI map: those of the literal, the five later ones, one
    per custom dimension row and one per Additional Parameters row. *)
Lemma uiParamMap_keys (data eventData ui : obj) (k : string) :
  uiParamMap data eventData = Some ui ->
  (In k (keys ui)
   <-> In k literal_keys \/ In k late_keys
       \/ (exists dim, In dim (rows data "custom_dims") /\ dim_key dim = k)
       \/ (exists param, In param (rows data "additionalParameters") /\ param_key param = k)).
Proof.
  intros H. destruct (uiParamMap_stages _ _ _ H) as (lit & ui1 & cv & scv & Hlit & Hd & _ & _ & Ha).
  apply additionalParameters_rows in Ha. apply customDims_rows in Hd.
  rewrite (loopM_keys _ _ _ additional_step k _ _ _ Ha), !keys_set.
  rewrite (loopM_keys _ _ _ dimension_step k _ _ _ Hd).
  unfold commonParams. rewrite !keys_set, (literal_has_keys _ _ _ Hlit).
  unfold late_keys, dim_key. simpl. intuition (subst; auto 10).
Qed.

(** The value of the UI map under a key that no Additional Parameters row
    and no custom dimension row writes. *)
Lemma uiParamMap_get_plain (data eventData ui : obj) (k : string) :
  uiParamMap data eventData = Some ui ->
  overridden data k = false -> take 9 k <> "dimension" ->
  exists lit cv scv,
    uiParamMap_literal data eventData = Some lit
    /\ cvarParam (get "cvars_event" data) (get "x-pp-cvar" eventData) = Some cv
    /\ cvarParam (get "cvars_session" data) (get "x-pp-_cvar" eventData) = Some scv
    /\ get k ui = get k (set "_cvar" scv (set "cvar" cv (commonParams eventData lit))).
Proof.
  intros H Hov Hdim.
  destruct (uiParamMap_stages _ _ _ H) as (lit & ui1 & cv & scv & Hlit & Hd & Hcv & Hscv & Ha).
  exists lit, cv, scv. repeat split; auto.
  apply additionalParameters_rows in Ha. apply customDims_rows in Hd.
  rewrite (loopM_get_untouched _ _ _ additional_step k _ _ _ Ha)
    by (apply overridden_false; auto).
  assert (get k ui1 = get k (commonParams eventData lit)) as E.
  { apply (loopM_get_untouched _ _ _ dimension_step k _ _ _ Hd).
    intros dim _ Hk. apply Hdim. rewrite <- Hk. apply take_dimension. }
  destruct (String.eqb_spec k "_cvar") as [->|H1].
  - now rewrite !get_set_same.
  - rewrite !(get_set_other k "_cvar") by auto.
    destruct (String.eqb_spec k "cvar") as [->|H2].
    + now rewrite !get_set_same.
    + now rewrite !(get_set_other k "cvar") by auto.
Qed.

Lemma body_of_map (eventData ui : obj) (k : string) :
  In k (keys ui) -> k <> "ts_n" -> k <> "ts_v" ->
  get k (buildRequestBody eventData ui) = purge (get k ui).
Proof.
  intros Hin Hn Hv. rewrite body_get by auto. apply has_In in Hin. now rewrite Hin.
Qed.

Lemma take_vendor (k : string) : take 5 (vendor k) = "x-pp-".
Proof. unfold take, vendor. simpl. now destruct k. Qed.

Lemma drop_vendor (k : string) : drop 5 (vendor k) = k.
Proof. reflexivity. Qed.

Lemma passthrough_keys (eventData : obj) (k : string) :
  In k (keys (passthrough eventData)) <-> In (vendor k) (keys eventData).
Proof.
  unfold passthrough.
  pose proof (fun t x => eq_refl :
    (fun requestBody key => set (replace_first "x-pp-" EmptyString key) (get key eventData) requestBody) t x
    = if (fun _ => true) x
      then set (replace_first "x-pp-" EmptyString x) ((fun k => get k eventData) x) t else t) as Hstep.
  rewrite (loop_keys _ (fun _ => true) (replace_first "x-pp-" EmptyString)
             (fun k => get k eventData) Hstep).
  split.
  - intros [[]|[key [Hin [_ Hk]]]]. apply filter_In in Hin. destruct Hin as [Hin Hp].
    apply String.eqb_eq in Hp. rewrite (strip_vendor_prefix key Hp) in Hk.
    subst k. unfold vendor. now rewrite <- (vendor_key key Hp).
  - intros Hin. right. exists (vendor k). repeat split.
    + apply filter_In. split; auto. rewrite take_vendor. reflexivity.
    + rewrite strip_vendor_prefix by apply take_vendor. reflexivity.
Qed.

Lemma body_key_defined (eventData ui : obj) (k : string) :
  In k (keys (buildRequestBody eventData ui))
  <-> nullish (get k (buildRequestBody eventData ui)) = false.
Proof. split; [apply body_keys | apply get_present]. Qed.

Lemma purge_nullish (v : value) : nullish (purge v) = nullish v.
Proof. now destruct v. Qed.

Lemma literal_more (data eventData lit : obj) :
  uiParamMap_literal data eventData = Some lit ->
  get "idsite" lit = get "websiteId" data
  /\ get "rec" lit = VNum (Int 1)
  /\ get "action_name" lit
     = or_else (or_else (get "action_name" data) (get "x-pp-action_name" eventData))
               (if is_pageview data eventData then get "page_title" eventData else VUndefined)
  /\ get "ec_id" lit
     = or_else (or_else (get "ec_id" data) (get "x-pp-ec_id" eventData))
               (get "transaction_id" eventData).
Proof.
  unfold uiParamMap_literal, bind. intros H.
  destruct (if truthy (get "search_cats" data) then _ else _) as [sc|]; [|discriminate].
  destruct (if truthy (get "_id" data) then _ else _) as [id|]; [|discriminate].
  injection H as <-. repeat split.
Qed.

Lemma literal_inherited (data eventData lit : obj) (p c e : string) :
  uiParamMap_literal data eventData = Some lit ->
  In (p, c, e) inherited_fields ->
  get p lit = or_else (get c data) (get e eventData) /\ In p literal_keys.
Proof.
  unfold uiParamMap_literal, bind. intros H Hin.
  destruct (if truthy (get "search_cats" data) then _ else _) as [sc|]; [|discriminate].
  destruct (if truthy (get "_id" data) then _ else _) as [id|]; [|discriminate].
  injection H as <-. unfold inherited_fields in Hin.
  repeat (destruct Hin as [Hin|Hin];
          [injection Hin as <- <- <-; split; [reflexivity | unfold literal_keys; simpl; tauto]|]).
  destruct Hin.
Qed.

Lemma or_else_falsy (a b : value) : truthy a = false -> or_else a b = b.
Proof. unfold or_else. now intros ->. Qed.

Lemma common_get (eventData lit : obj) :
  get "ua" (commonParams eventData lit) = get "user_agent" eventData
  /\ get "lang" (commonParams eventData lit) = get "language" eventData
  /\ get "res" (commonParams eventData lit) = get "screen_resolution" eventData.
Proof.
  unfold commonParams. repeat split.
  - rewrite !get_set_other by discriminate. apply get_set_same.
  - rewrite get_set_other by discriminate. apply get_set_same.
  - apply get_set_same.
Qed.

(** The final value of a key of the map that is neither a table's nor the
    library's. *)
Lemma final_plain (data eventData body : obj) (k : string) :
  requestBody data eventData = Some body ->
  overridden data k = false -> take 9 k <> "dimension" ->
  In k literal_keys \/ In k late_keys ->
  exists lit cv scv,
    uiParamMap_literal data eventData = Some lit
    /\ cvarParam (get "cvars_event" data) (get "x-pp-cvar" eventData) = Some cv
    /\ cvarParam (get "cvars_session" data) (get "x-pp-_cvar" eventData) = Some scv
    /\ get k body = purge (get k (set "_cvar" scv (set "cvar" cv (commonParams eventData lit)))).
Proof.
  intros Hb Hov Hdim Hk. destruct (requestBody_inv _ _ _ Hb) as [ui [Hui ->]].
  destruct (uiParamMap_get_plain _ _ _ k Hui Hov Hdim) as (lit & cv & scv & Hlit & Hcv & Hscv & Hg).
  exists lit, cv, scv. repeat split; auto.
  rewrite <- Hg. apply body_of_map.
  - apply (uiParamMap_keys _ _ _ k Hui). tauto.
  - destruct Hk as [Hk|Hk]; [apply literal_key_facts in Hk | apply late_key_facts in Hk]; tauto.
  - destruct Hk as [Hk|Hk]; [apply literal_key_facts in Hk | apply late_key_facts in Hk]; tauto.
Qed.

Lemma eq_iff_eq_true_false (a b : bool) : a = b -> (a = false <-> b = false).
Proof. now intros ->. Qed.

Lemma loopM_app_any {A S : Type} (step : S -> A -> option S) (xs ys : list A) (s s' : S) :
  foldM step (xs ++ ys) s = Some s' ->
  exists m, foldM step xs s = Some m /\ foldM step ys m = Some s'.
Proof.
  revert s. induction xs as [|x xs IH]; simpl; intros s H.
  - eauto.
  - unfold bind in *. destruct (step s x) as [t|]; [|discriminate]. now apply IH.
Qed.

(** ** The keys of the request *)

(** X2: the final parameter set holds each key once, and every key it holds
    is [ts_n] or [ts_v], a key of the object literal, one of [ua], [lang],
    [res], [cvar], [_cvar], the key of a custom dimension row, the key of an
    Additional Parameters row, or the name of an event field that carries
    the [x-pp-] prefix.  No other field of the event becomes a parameter. *)
Theorem X2_request_keys :
  forall data eventData body,
    requestBody data eventData = Some body ->
    NoDup (keys body)
    /\ forall k, In k (keys body) ->
         k = "ts_n" \/ k = "ts_v" \/ In k literal_keys \/ In k late_keys
         \/ (exists dim, In dim (rows data "custom_dims") /\ dim_key dim = k)
         \/ (exists param, In param (rows data "additionalParameters") /\ param_key param = k)
         \/ In (vendor k) (keys eventData).
Proof.
  intros data eventData body H. destruct (requestBody_inv _ _ _ H) as [ui [Hui ->]].
  split; [apply cleanObject_NoDup|].
  intros k Hin. unfold buildRequestBody in Hin. apply cleanObject_keys in Hin.
  destruct Hin as [Hin _]. rewrite !keys_set, overwrite_keys in Hin.
  destruct Hin as [->|[->|[Hin|Hin]]]; auto.
  - apply passthrough_keys in Hin. auto 10.
  - apply (uiParamMap_keys _ _ _ k Hui) in Hin. tauto.
Qed.

Lemma X2_request_keys_witness :
  NoDup (keys (run tables_data tables_event))
  /\ ~ In "client_id" (keys (run tables_data tables_event))
  /\ ~ In "page_title" (keys (run tables_data tables_event)).
Proof.
  destruct (X2_request_keys tables_data tables_event (run tables_data tables_event) eq_refl)
    as [Hnd Hkeys].
  split; [exact Hnd|]. split; intros Hin; apply Hkeys in Hin;
    vm_compute in Hin; intuition (try discriminate);
    repeat match goal with
           | H : exists _, _ |- _ => destruct H as [? H]
           end; intuition (subst; discriminate).
Defined.

(** ** The Additional Parameters table, any key *)

(** X3: a row of the Additional Parameters table decides the final value of
    its key, for every key other than [ts_n] and [ts_v]: a value that is null
    or undefined removes the parameter from the request, any other value,
    the empty string too, is sent as it is.  The key column is unique. *)
Theorem X3_free_form_any_key :
  forall (data : obj) (param : value),
    In param (rows data "additionalParameters") ->
    NoDup (map param_key (rows data "additionalParameters")) ->
    param_key param <> "ts_n" -> param_key param <> "ts_v" ->
    forall eventData body,
      requestBody data eventData = Some body ->
      get (param_key param) body = purge (prop param "value")
      /\ (In (param_key param) (keys body) <-> nullish (prop param "value") = false).
Proof.
  intros data param Hin Hnd Hn Hv eventData body H.
  destruct (requestBody_inv _ _ _ H) as [ui [Hui ->]].
  destruct (in_split _ _ Hin) as [before [after Hrows]].
  assert (forall y, In y after -> param_key y <> param_key param) as Hafter.
  { apply (last_of_unique param_key before after param). now rewrite <- Hrows. }
  destruct (uiParamMap_stages _ _ _ Hui) as (lit & ui1 & cv & scv & _ & _ & _ & _ & Ha).
  assert (get (param_key param) (buildRequestBody eventData ui) = purge (prop param "value")) as E.
  { rewrite body_of_map; auto.
    - now rewrite (additionalParameters_last data _ ui before after param Ha Hrows Hafter).
    - apply (uiParamMap_keys _ _ _ _ Hui). right. right. right. eauto. }
  split; auto. rewrite body_key_defined, E. apply eq_iff_eq_true_false. apply purge_nullish.
Qed.

Lemma X3_free_form_witness :
  get "lang" (run tables_data tables_event) = VStr "de"
  /\ ~ In "uia" (keys (run tables_data tables_event))
  /\ In "e_n" (keys (run tables_data tables_event)).
Proof.
  assert (NoDup (map param_key (rows tables_data "additionalParameters"))) as Hnd.
  { simpl. repeat constructor; simpl; intuition discriminate. }
  pose proof (fun param Hin Hn Hv =>
                X3_free_form_any_key tables_data param Hin Hnd Hn Hv tables_event
                  (run tables_data tables_event) eq_refl) as H.
  split; [|split].
  - assert (In (VObj [("key", VStr "lang"); ("value", VStr "de")])
               (rows tables_data "additionalParameters")) as Hin by (simpl; auto).
    destruct (H _ Hin) as [Hg _]; [discriminate | discriminate |].
    vm_compute in Hg. vm_compute. exact Hg.
  - assert (In (VObj [("key", VStr "uia"); ("value", VNull)])
               (rows tables_data "additionalParameters")) as Hin by (simpl; auto).
    destruct (H _ Hin) as [_ Hk]; [discriminate | discriminate |].
    change (In "uia" (keys (run tables_data tables_event)) <-> nullish VNull = false) in Hk.
    intros Hin'. apply (proj1 Hk) in Hin'. discriminate Hin'.
  - assert (In (VObj [("key", VStr "e_n"); ("value", VStr EmptyString)])
               (rows tables_data "additionalParameters")) as Hin by (simpl; auto).
    destruct (H _ Hin) as [_ Hk]; [discriminate | discriminate |].
    change (In "e_n" (keys (run tables_data tables_event))
            <-> nullish (VStr EmptyString) = false) in Hk.
    apply (proj2 Hk). reflexivity.
Defined.

(** ** Custom dimensions *)

Lemma customDims_last (data ui ui' : obj) (before after : list value) (dim : value) :
  customDims data ui = Some ui' ->
  rows data "custom_dims" = (before ++ dim :: after)%list ->
  (forall y, In y after -> dim_key y <> dim_key dim) ->
  get (dim_key dim) ui' = prop dim "value".
Proof.
  intros H Hrows Hafter. apply customDims_rows in H. rewrite Hrows in H.
  now apply (loopM_get_last _ _ _ dimension_step (dim_key dim) before after dim ui ui').
Qed.

Lemma dim_key_facts (dim : value) :
  dim_key dim <> "cvar" /\ dim_key dim <> "_cvar" /\ dim_key dim <> "ts_n"
  /\ dim_key dim <> "ts_v".
Proof. unfold dim_key. repeat split; intros E; simpl in E; discriminate. Qed.

(** X4: a row of the custom dimensions table gives the parameter
    [dimension<index>] its value in the final parameter set, whatever the
    event carries under [x-pp-dimension<index>], unless a row of the
    Additional Parameters table rewrites that key; a null or undefined value
    removes the parameter.  The index column is unique. *)
Theorem X4_custom_dimension_rows :
  forall (data : obj) (dim : value),
    In dim (rows data "custom_dims") ->
    NoDup (map dim_key (rows data "custom_dims")) ->
    overridden data (dim_key dim) = false ->
    forall eventData body,
      requestBody data eventData = Some body ->
      get (dim_key dim) body = purge (prop dim "value").
Proof.
  intros data dim Hin Hnd Hov eventData body H.
  destruct (requestBody_inv _ _ _ H) as [ui [Hui ->]].
  destruct (in_split _ _ Hin) as [before [after Hrows]].
  assert (forall y, In y after -> dim_key y <> dim_key dim) as Hafter.
  { apply (last_of_unique dim_key before after dim). now rewrite <- Hrows. }
  destruct (uiParamMap_stages _ _ _ Hui) as (lit & ui1 & cv & scv & _ & Hd & _ & _ & Ha).
  destruct (dim_key_facts dim) as (H1 & H2 & H3 & H4).
  rewrite body_of_map; auto.
  - apply additionalParameters_rows in Ha.
    rewrite (loopM_get_untouched _ _ _ additional_step _ _ _ _ Ha)
      by (apply overridden_false; auto).
    rewrite !get_set_other by auto.
    now rewrite (customDims_last data _ ui1 before after dim Hd Hrows Hafter).
  - apply (uiParamMap_keys _ _ _ _ Hui). right. right. left. eauto.
Qed.

Lemma X4_custom_dimension_witness :
  get "dimension3" (run tables_data tables_event) = VStr "gold"
  /\ get "x-pp-dimension3" tables_event = VStr "silver".
Proof.
  split; [|reflexivity].
  assert (In (VObj [("index", VStr "3"); ("value", VStr "gold")])
             (rows tables_data "custom_dims")) as Hin by (simpl; auto).
  assert (NoDup (map dim_key (rows tables_data "custom_dims"))) as Hnd
    by (simpl; repeat constructor; simpl; tauto).
  pose proof (X4_custom_dimension_rows tables_data _ Hin Hnd eq_refl tables_event
                (run tables_data tables_event) eq_refl) as Hg.
  vm_compute in Hg. vm_compute. exact Hg.
Defined.

(** ** Custom variables *)

Lemma cvar_step (acc : obj) (cur : value) (acc' : obj) :
  (id <- member cur "id" ;; name <- member cur "name" ;; v <- member cur "value" ;;
   Some (set (to_string id) (VArr [name; v]) acc)) = Some acc' ->
  acc' = set (cvar_id cur) (VArr [prop cur "name"; prop cur "value"]) acc.
Proof.
  unfold bind, cvar_id.
  destruct (member cur "id") as [id|] eqn:Hi; [|discriminate].
  destruct (member cur "name") as [name|] eqn:Hn; [|discriminate].
  destruct (member cur "value") as [v|] eqn:Hv; [|discriminate].
  apply member_Some in Hi, Hn, Hv. subst. congruence.
Qed.

Lemma cvarParam_inherits (cvars inherited : value) :
  truthy cvars = false \/ cvars = VArr [] ->
  cvarParam cvars inherited = Some (JSON_stringify inherited).
Proof.
  intros [H| ->]; [|reflexivity].
  unfold cvarParam, and_then. now rewrite H, H.
Qed.

Lemma cvarParam_rows (table : list value) (inherited cv : value) :
  table <> [] ->
  cvarParam (VArr table) inherited = Some cv ->
  exists acc,
    foldM (fun acc cur =>
             id <- member cur "id" ;; name <- member cur "name" ;; v <- member cur "value" ;;
             Some (set (to_string id) (VArr [name; v]) acc)) table [] = Some acc
    /\ cv = JSON_stringify (VObj acc).
Proof.
  intros Hne. unfold cvarParam, and_then.
  assert (truthy (prop (VArr table) "length") = true) as Hl.
  { destruct table; [contradiction | reflexivity]. }
  cbn [truthy]. rewrite Hl. cbn [forEach]. unfold bind at 1.
  match goal with
  | |- context [foldM ?f table []] => destruct (foldM f table []) as [acc|]
  end; [|discriminate].
  intros H. injection H as <-. eauto.
Qed.

(** With rows in the table the inherited value is not read. *)
Lemma cvarParam_ignores (table : list value) (inherited other : value) :
  table <> [] -> cvarParam (VArr table) inherited = cvarParam (VArr table) other.
Proof.
  intros Hne. unfold cvarParam, and_then.
  assert (truthy (prop (VArr table) "length") = true) as Hl.
  { destruct table; [contradiction | reflexivity]. }
  cbn [truthy]. now rewrite Hl.
Qed.

(** X5: a custom variable table with rows gives the parameter the JSON text
    of an object whose keys are the ids of the rows and nothing else, each
    once, and which maps each id to the pair of name and value of the last
    row with that id; the event's inherited value is then not read, the
    result is the same for every inherited value.  The order of the keys in
    the text is left open.  A table that is not set or has no row gives the
    JSON text of the inherited value.  The text reaches the final parameter
    set unless an Additional Parameters row rewrites the key, and is absent
    when there is nothing to serialize. *)
Theorem X5_custom_variables :
  (forall cvars inherited,
     truthy cvars = false \/ cvars = VArr [] ->
     cvarParam cvars inherited = Some (JSON_stringify inherited))
  /\ (forall table inherited cv,
        table <> [] -> cvarParam (VArr table) inherited = Some cv ->
        (forall other, cvarParam (VArr table) other = Some cv)
        /\ exists acc,
             cv = JSON_stringify (VObj acc) /\ truthy cv = true
             /\ NoDup (keys acc)
             /\ (forall k, In k (keys acc) <-> exists cur, In cur table /\ cvar_id cur = k)
             /\ forall before cur after,
                  table = (before ++ cur :: after)%list ->
                  (forall y, In y after -> cvar_id y <> cvar_id cur) ->
                  get (cvar_id cur) acc = VArr [prop cur "name"; prop cur "value"])
  /\ (forall data eventData body,
        requestBody data eventData = Some body ->
        (overridden data "cvar" = false ->
         Some (get "cvar" body)
         = option_map purge (cvarParam (get "cvars_event" data) (get "x-pp-cvar" eventData)))
        /\ (overridden data "_cvar" = false ->
            Some (get "_cvar" body)
            = option_map purge
                (cvarParam (get "cvars_session" data) (get "x-pp-_cvar" eventData)))).
Proof.
  split; [apply cvarParam_inherits|]. split.
  - intros table inherited cv Hne H. split.
    { intros other. now rewrite (cvarParam_ignores table other inherited Hne). }
    destruct (cvarParam_rows table inherited cv Hne H) as [acc [Hacc ->]].
    exists acc. split; [reflexivity|]. split; [reflexivity|]. split; [|split].
    + apply (loopM_NoDup _ cvar_id (fun cur => VArr [prop cur "name"; prop cur "value"])
               cvar_step table [] acc Hacc). constructor.
    + intros k.
      rewrite (loopM_keys _ cvar_id (fun cur => VArr [prop cur "name"; prop cur "value"])
                 cvar_step k table [] acc Hacc).
      simpl. tauto.
    + intros before cur after -> Hafter.
      now apply (loopM_get_last _ _ _ cvar_step (cvar_id cur) before after cur [] acc).
  - intros data eventData body H. split; intros Hov.
    + destruct (final_plain _ _ _ "cvar" H Hov) as (lit & cv & scv & _ & Hcv & _ & Hg);
        [intros E; vm_compute in E; discriminate | right; unfold late_keys; simpl; tauto |].
      rewrite Hcv, Hg. simpl. rewrite get_set_other by discriminate.
      now rewrite get_set_same.
    + destruct (final_plain _ _ _ "_cvar" H Hov) as (lit & cv & scv & _ & _ & Hscv & Hg);
        [intros E; vm_compute in E; discriminate | right; unfold late_keys; simpl; tauto |].
      rewrite Hscv, Hg. simpl. now rewrite get_set_same.
Qed.

Lemma X5_custom_variables_witness :
  get "cvar" (run tables_data tables_event)
  = JSON_stringify (VObj [("1", VArr [VStr "plan"; VStr "pro"])])
  /\ cvarParam (VArr []) (VObj [("9", VStr "event")])
     = Some (JSON_stringify (VObj [("9", VStr "event")]))
  /\ cvarParam (get "cvars_event" tables_data) VUndefined
     = cvarParam (get "cvars_event" tables_data) (get "x-pp-cvar" tables_event).
Proof.
  destruct X5_custom_variables as (Hunset & Hrows & Hfinal).
  split; [|split].
  - destruct (Hfinal tables_data tables_event (run tables_data tables_event) eq_refl)
      as [Hcvar _].
    specialize (Hcvar eq_refl).
    apply (f_equal (fun o => match o with Some v => v | None => VUndefined end)) in Hcvar.
    rewrite Hcvar. reflexivity.
  - apply Hunset. now right.
  - destruct (Hrows [VObj [("id", VStr "1"); ("name", VStr "plan"); ("value", VStr "pro")]]
                (get "x-pp-cvar" tables_event)
                (JSON_stringify (VObj [("1", VArr [VStr "plan"; VStr "pro"])])))
      as [Hsame _]; [discriminate | reflexivity |].
    exact (Hsame VUndefined).
Defined.

(** ** Defaults and inherited values *)

Lemma final_literal (data eventData body : obj) (k : string) :
  requestBody data eventData = Some body ->
  In k literal_keys -> overridden data k = false ->
  exists lit, uiParamMap_literal data eventData = Some lit
    /\ get k body = purge (get k lit).
Proof.
  intros H Hk Hov. destruct (requestBody_literal _ _ _ H) as [lit [Hlit Hres]].
  exists lit. auto.
Qed.

Lemma or_else_number_defined (v : value) (z : Z) : nullish (or_else v (VNum (Int z))) = false.
Proof. unfold or_else. destruct (truthy v) eqn:E; [now apply truthy_not_nullish | reflexivity]. Qed.

(** X6: unless an Additional Parameters row rewrites them, [rec], [uia] and
    [rmip] are always in the final parameter set: [rec] is 1; [uia] is 1 when
    the anonymous mode is [uia], else the event's [x-pp-uia] when that is
    truthy, else 0, and likewise [rmip]; a missing, null, zero or empty event
    value therefore gives 0.  The mode sets at most one of the two. *)
Theorem X6_recording_and_anonymity_defaults :
  forall data eventData body,
    requestBody data eventData = Some body ->
    (overridden data "rec" = false -> get "rec" body = VNum (Int 1))
    /\ (overridden data "uia" = false ->
        get "uia" body
        = (if is_str (get "anonymous" data) "uia" then VNum (Int 1)
           else if truthy (get "x-pp-uia" eventData) then get "x-pp-uia" eventData
                else VNum (Int 0))
        /\ In "uia" (keys body))
    /\ (overridden data "rmip" = false ->
        get "rmip" body
        = (if is_str (get "anonymous" data) "rmip" then VNum (Int 1)
           else if truthy (get "x-pp-rmip" eventData) then get "x-pp-rmip" eventData
                else VNum (Int 0))
        /\ In "rmip" (keys body))
    /\ (is_str (get "anonymous" data) "uia" && is_str (get "anonymous" data) "rmip")%bool = false.
Proof.
  intros data eventData body H. split; [|split; [|split]].
  - intros Hov. destruct (final_literal _ _ _ "rec" H) as [lit [Hlit ->]];
      [unfold literal_keys; simpl; tauto | auto |].
    destruct (literal_more _ _ _ Hlit) as (_ & -> & _). reflexivity.
  - intros Hov. destruct (final_literal _ _ _ "uia" H) as [lit [Hlit E]];
      [unfold literal_keys; simpl; tauto | auto |].
    destruct (literal_inv _ _ _ Hlit) as (_ & _ & _ & _ & _ & _ & _ & Huia & _).
    assert (nullish (get "uia" lit) = false) as Hn.
    { rewrite Huia. destruct (is_str _ _); [reflexivity | apply or_else_number_defined]. }
    unfold purge in E. rewrite Hn in E. split.
    + rewrite E, Huia. reflexivity.
    + apply get_present. now rewrite E.
  - intros Hov. destruct (final_literal _ _ _ "rmip" H) as [lit [Hlit E]];
      [unfold literal_keys; simpl; tauto | auto |].
    destruct (literal_inv _ _ _ Hlit) as (_ & _ & _ & _ & _ & _ & _ & _ & Hrmip).
    assert (nullish (get "rmip" lit) = false) as Hn.
    { rewrite Hrmip. destruct (is_str _ _); [reflexivity | apply or_else_number_defined]. }
    unfold purge in E. rewrite Hn in E. split.
    + rewrite E, Hrmip. reflexivity.
    + apply get_present. now rewrite E.
  - unfold is_str. destruct (get "anonymous" data); auto.
    destruct (String.eqb_spec s "uia") as [->|]; reflexivity.
Qed.

Lemma X6_defaults_witness :
  get "rec" (run [] [("x-pp-uia", VNull)]) = VNum (Int 1)
  /\ get "uia" (run [] [("x-pp-uia", VNull)]) = VNum (Int 0)
  /\ In "rmip" (keys (run [] [("x-pp-uia", VNull)])).
Proof.
  destruct (X6_recording_and_anonymity_defaults [] [("x-pp-uia", VNull)]
              (run [] [("x-pp-uia", VNull)]) eq_refl) as (Hrec & Huia & Hrmip & _).
  split; [exact (Hrec eq_refl)|]. split.
  - destruct (Huia eq_refl) as [E _]. rewrite E. reflexivity.
  - destruct (Hrmip eq_refl) as [_ Hin]. exact Hin.
Defined.

(** X7: with no configured action name, [action_name] is the event's
    [x-pp-action_name] when that is truthy; failing that it is the page
    title, and only when the configuration or the event names a page view;
    for any other event the parameter is absent.  This holds unless an
    Additional Parameters row rewrites the key. *)
Theorem X7_action_name_fallback :
  forall data eventData body,
    requestBody data eventData = Some body ->
    overridden data "action_name" = false ->
    truthy (get "action_name" data) = false ->
    (truthy (get "x-pp-action_name" eventData) = true ->
     get "action_name" body = get "x-pp-action_name" eventData)
    /\ (truthy (get "x-pp-action_name" eventData) = false ->
        is_pageview data eventData = true ->
        get "action_name" body = purge (get "page_title" eventData))
    /\ (truthy (get "x-pp-action_name" eventData) = false ->
        is_pageview data eventData = false ->
        ~ In "action_name" (keys body)).
Proof.
  intros data eventData body H Hov Hcfg.
  destruct (final_literal _ _ _ "action_name" H) as [lit [Hlit E]];
    [unfold literal_keys; simpl; tauto | auto |].
  destruct (literal_more _ _ _ Hlit) as (_ & _ & Ha & _).
  rewrite Ha, (or_else_falsy _ _ Hcfg) in E. split; [|split].
  - intros Hv. rewrite E, (or_else_truthy _ _ Hv). now apply purge_truthy.
  - intros Hv Hp. rewrite E, (or_else_falsy _ _ Hv), Hp. reflexivity.
  - intros Hv Hp Hin. rewrite (or_else_falsy _ _ Hv), Hp in E.
    apply (requestBody_defined _ _ _ _ H) in Hin. rewrite E in Hin. discriminate.
Qed.

Lemma X7_action_name_witness :
  get "action_name" (run tables_data tables_event) = VStr "Home"
  /\ ~ In "action_name" (keys (run [] [("page_title", VStr "Home")])).
Proof.
  split.
  - destruct (X7_action_name_fallback tables_data tables_event
                (run tables_data tables_event) eq_refl eq_refl eq_refl) as (_ & Hp & _).
    now rewrite Hp.
  - destruct (X7_action_name_fallback [] [("page_title", VStr "Home")]
                (run [] [("page_title", VStr "Home")]) eq_refl eq_refl eq_refl) as (_ & _ & Hn).
    now apply Hn.
Defined.

(** X8: a text field of the configuration that is not set, or is empty,
    inherits: its parameter is the event's field of the same role ([url] from
    [page_location], [uid] from [user_id], [revenue] from [value], the
    others from their [x-pp-] field), purged; [ec_id] inherits
    [x-pp-ec_id] and, failing that, [transaction_id].  This holds unless an
    Additional Parameters row rewrites the key. *)
Theorem X8_inherit_from_event :
  forall data eventData body,
    requestBody data eventData = Some body ->
    (forall p c e, In (p, c, e) inherited_fields ->
       truthy (get c data) = false -> overridden data p = false ->
       get p body = purge (get e eventData))
    /\ (truthy (get "ec_id" data) = false -> overridden data "ec_id" = false ->
        get "ec_id" body
        = purge (if truthy (get "x-pp-ec_id" eventData) then get "x-pp-ec_id" eventData
                 else get "transaction_id" eventData)).
Proof.
  intros data eventData body H. split.
  - intros p c e Hin Hcfg Hov.
    destruct (requestBody_literal _ _ _ H) as [lit [Hlit Hres]].
    destruct (literal_inherited _ _ _ p c e Hlit Hin) as [Hg Hk].
    now rewrite (Hres p Hk Hov), Hg, (or_else_falsy _ _ Hcfg).
  - intros Hcfg Hov.
    destruct (final_literal _ _ _ "ec_id" H) as [lit [Hlit ->]];
      [unfold literal_keys; simpl; tauto | auto |].
    destruct (literal_more _ _ _ Hlit) as (_ & _ & _ & ->).
    now rewrite (or_else_falsy _ _ Hcfg).
Qed.

Lemma X8_inherit_witness :
  get "ec_id" (run tables_data tables_event) = VStr "T-1"
  /\ get "url" (run [("url", VStr EmptyString)] [("page_location", VStr "https://a.example/")])
     = VStr "https://a.example/".
Proof.
  split.
  - destruct (X8_inherit_from_event tables_data tables_event
                (run tables_data tables_event) eq_refl) as [_ H].
    now rewrite H.
  - destruct (X8_inherit_from_event [("url", VStr EmptyString)]
                [("page_location", VStr "https://a.example/")]
                (run [("url", VStr EmptyString)] [("page_location", VStr "https://a.example/")])
                eq_refl) as [H _].
    rewrite (H "url" "url" "page_location"); [reflexivity | | reflexivity | reflexivity].
    unfold inherited_fields. simpl. tauto.
Defined.

(** X9: the site id and the common event parameters have one source each:
    [idsite] is the configured site id and never the event's [x-pp-idsite];
    [ua], [lang] and [res] are the event's [user_agent], [language] and
    [screen_resolution] and never its [x-pp-ua], [x-pp-lang] or
    [x-pp-res]; a missing source leaves the parameter out.  This holds unless
    an Additional Parameters row rewrites the key. *)
Theorem X9_single_source_parameters :
  forall data eventData body,
    requestBody data eventData = Some body ->
    (overridden data "idsite" = false -> get "idsite" body = purge (get "websiteId" data))
    /\ (overridden data "ua" = false -> get "ua" body = purge (get "user_agent" eventData))
    /\ (overridden data "lang" = false -> get "lang" body = purge (get "language" eventData))
    /\ (overridden data "res" = false ->
        get "res" body = purge (get "screen_resolution" eventData)).
Proof.
  intros data eventData body H. split; [|split; [|split]]; intros Hov.
  - destruct (final_literal _ _ _ "idsite" H) as [lit [Hlit ->]];
      [unfold literal_keys; simpl; tauto | auto |].
    now destruct (literal_more _ _ _ Hlit) as (-> & _).
  - destruct (final_plain _ _ _ "ua" H Hov) as (lit & cv & scv & _ & _ & _ & ->);
      [intros E; vm_compute in E; discriminate | right; unfold late_keys; simpl; tauto |].
    rewrite !get_set_other by discriminate. now destruct (common_get eventData lit) as (-> & _).
  - destruct (final_plain _ _ _ "lang" H Hov) as (lit & cv & scv & _ & _ & _ & ->);
      [intros E; vm_compute in E; discriminate | right; unfold late_keys; simpl; tauto |].
    rewrite !get_set_other by discriminate.
    now destruct (common_get eventData lit) as (_ & -> & _).
  - destruct (final_plain _ _ _ "res" H Hov) as (lit & cv & scv & _ & _ & _ & ->);
      [intros E; vm_compute in E; discriminate | right; unfold late_keys; simpl; tauto |].
    rewrite !get_set_other by discriminate.
    now destruct (common_get eventData lit) as (_ & _ & ->).
Qed.

Lemma X9_single_source_witness :
  get "ua" (run [] tables_event) = VStr "agent"
  /\ ~ In "idsite" (keys (run [] tables_event))
  /\ ~ In "res" (keys (run [] tables_event)).
Proof.
  destruct (X9_single_source_parameters [] tables_event (run [] tables_event) eq_refl)
    as (Hid & Hua & _ & Hres).
  split; [now rewrite Hua|]. split; intros Hin.
  - apply (requestBody_defined [] tables_event) in Hin; [|reflexivity].
    rewrite Hid in Hin by reflexivity. discriminate.
  - apply (requestBody_defined [] tables_event) in Hin; [|reflexivity].
    rewrite Hres in Hin by reflexivity. discriminate.
Defined.

(** ** The visitor id is 16 hexadecimal characters *)

Lemma append_nil_r (s : string) : (s ++ EmptyString)%string = s.
Proof. induction s; simpl; congruence. Qed.

Lemma append_assoc (a b c : string) : ((a ++ b) ++ c = a ++ (b ++ c))%string.
Proof. induction a; simpl; congruence. Qed.

Lemma length_append (a b : string) :
  String.length (a ++ b) = (String.length a + String.length b)%nat.
Proof. induction a; simpl; congruence. Qed.

Lemma all_chars_append (p : ascii -> bool) (a b : string) :
  all_chars p (a ++ b) = (all_chars p a && all_chars p b)%bool.
Proof. induction a as [|x a IH]; simpl; auto. rewrite IH. now destruct (p x). Qed.

Lemma concat_cons (x : string) (xs : list string) :
  String.concat EmptyString (x :: xs) = (x ++ String.concat EmptyString xs)%string.
Proof. destruct xs; simpl; [now rewrite append_nil_r | reflexivity]. Qed.

Lemma take_length (n : nat) (s : string) :
  String.length (take n s) = Nat.min n (String.length s).
Proof.
  unfold take. revert s. induction n as [|n IH]; intros [|a s]; simpl; auto.
Qed.

Lemma take_all_chars (p : ascii -> bool) (n : nat) (s : string) :
  all_chars p s = true -> all_chars p (take n s) = true.
Proof.
  unfold take. revert s. induction n as [|n IH]; intros [|a s]; simpl; auto.
  intros H. apply andb_true_iff in H. destruct H as [-> H]. simpl. now apply IH.
Qed.

Lemma be_bytes_spec (n : nat) (x : Z) :
  List.length (Sha256.be_bytes n x) = n /\ Forall is_byte (Sha256.be_bytes n x).
Proof.
  induction n as [|n [IHl IHf]]; simpl; [split; constructor|].
  split; [congruence|]. constructor; auto.
  change 255 with (Z.ones 8). rewrite Z.land_ones by lia.
  unfold is_byte. change (2 ^ 8) with 256. apply Z.mod_pos_bound. lia.
Qed.

Lemma digest_spec (msg : list Z) :
  List.length (Sha256.digest msg) = 32%nat /\ Forall is_byte (Sha256.digest msg).
Proof.
  unfold Sha256.digest. set (h := Sha256.blocks _ _ _). clearbody h.
  cbn [flat_map]. rewrite !length_app, !Forall_app.
  repeat rewrite (proj1 (be_bytes_spec 4 _)).
  split; [reflexivity|].
  repeat split; try apply be_bytes_spec. constructor.
Qed.

Lemma hex_digit_is_hex (n : nat) : (n < 16)%nat -> is_hex (hex_digit n) = true.
Proof.
  intros H. do 16 (destruct n as [|n]; [reflexivity|]). lia.
Qed.

Lemma hex_of_byte_spec (b : Z) :
  is_byte b ->
  String.length (Sha256.hex_of_byte b) = 2%nat
  /\ all_chars is_hex (Sha256.hex_of_byte b) = true.
Proof.
  intros [Hlo Hhi]. unfold Sha256.hex_of_byte. split; [reflexivity|].
  cbn [all_chars]. rewrite !hex_digit_is_hex; auto.
  - pose proof (Z.mod_pos_bound b 16). lia.
  - assert (b / 16 < 16) by (apply Z.div_lt_upper_bound; lia).
    assert (0 <= b / 16) by (apply Z.div_pos; lia). lia.
Qed.

Lemma hex_of_bytes_spec (bs : list Z) :
  Forall is_byte bs ->
  String.length (String.concat EmptyString (map Sha256.hex_of_byte bs))
  = (2 * List.length bs)%nat
  /\ all_chars is_hex (String.concat EmptyString (map Sha256.hex_of_byte bs)) = true.
Proof.
  induction 1 as [|b bs Hb Hbs [IHl IHa]]; [split; reflexivity|].
  cbn [map]. rewrite concat_cons, length_append, all_chars_append, IHl, IHa.
  destruct (hex_of_byte_spec b Hb) as [-> ->]. split; [simpl; lia | reflexivity].
Qed.

(** The hexadecimal digest is 64 hexadecimal characters. *)
Lemma sha256_hex_spec (s : string) :
  String.length (Sha256.hex s) = 64%nat /\ all_chars is_hex (Sha256.hex s) = true.
Proof.
  unfold Sha256.hex.
  destruct (digest_spec (Sha256.bytes_of_string s)) as [Hl Hf].
  destruct (hex_of_bytes_spec _ Hf) as [Hlen Hall]. rewrite Hl in Hlen. auto.
Qed.

Lemma hash_prefix_is_visitor_id (s : string) :
  testRegex_hex16 (VStr (substring 0 16 (Sha256.hex s))) = true.
Proof.
  destruct (sha256_hex_spec s) as [Hl Ha].
  change (substring 0 16 (Sha256.hex s)) with (take 16 (Sha256.hex s)).
  cbn [testRegex_hex16]. rewrite take_length, Hl, (take_all_chars _ _ _ Ha). reflexivity.
Qed.

Lemma visitor_id_truthy (v : value) : testRegex_hex16 v = true -> truthy v = true.
Proof.
  destruct v as [| | | |s| |]; try discriminate. destruct s; [discriminate | reflexivity].
Qed.

#[local] Opaque Sha256.hex.

Lemma getClientIdHash_shape (eventData : obj) (id : value) :
  getClientIdHash eventData = Some id -> id = VUndefined \/ testRegex_hex16 id = true.
Proof.
  unfold getClientIdHash, bind.
  destruct (truthy (get "client_id" eventData)); cbn [negb].
  - destruct (testRegex_hex16 (get "client_id" eventData)) eqn:Hm.
    + intros H. injection H as <-. auto.
    + destruct (get "client_id" eventData); cbn [sha256Sync]; try discriminate.
      intros H. right. assert (id = VStr (substring 0 16 (Sha256.hex s))) as -> by congruence.
      apply hash_prefix_is_visitor_id.
  - intros H. injection H as <-. auto.
Qed.

#[local] Transparent Sha256.hex.

(** X10: what the template derives from the event's client id is either
    nothing or 16 hexadecimal characters, and deriving again from the
    derived id returns it unchanged.  With a configured visitor id that
    passes the validator of its input field, the [_id] of the final
    parameter set is therefore absent or 16 hexadecimal characters, unless
    an Additional Parameters row rewrites it. *)
Theorem X10_visitor_id_shape :
  (forall eventData id,
     getClientIdHash eventData = Some id ->
     (id = VUndefined \/ is_visitor_id id = true)
     /\ (id <> VUndefined -> getClientIdHash (set "client_id" id eventData) = Some id))
  /\ (forall data eventData body,
        requestBody data eventData = Some body ->
        overridden data "_id" = false ->
        (truthy (get "_id" data) = true -> is_visitor_id (get "_id" data) = true) ->
        ~ In "_id" (keys body) \/ is_visitor_id (get "_id" body) = true).
Proof.
  split.
  - intros eventData id H. pose proof (getClientIdHash_shape _ _ H) as Hs.
    split; auto. intros Hne. destruct Hs as [->|Hs]; [contradiction|].
    unfold getClientIdHash. rewrite get_set_same, (visitor_id_truthy id Hs). cbn [negb].
    now rewrite Hs.
  - intros data eventData body H Hov Hvalid.
    destruct (final_literal _ _ _ "_id" H) as [lit [Hlit E]];
      [unfold literal_keys; simpl; tauto | auto |].
    destruct (literal_inv _ _ _ Hlit) as (sc & id & _ & Hid & _ & Gid & _).
    rewrite Gid in E.
    assert (id = VUndefined \/ testRegex_hex16 id = true) as [->|Hs].
    { destruct (truthy (get "_id" data)) eqn:Ht.
      - injection Hid as <-. right. now apply Hvalid.
      - now apply (getClientIdHash_shape eventData). }
    + left. intros Hin. apply (requestBody_defined _ _ _ _ H) in Hin.
      rewrite E in Hin. discriminate.
    + right. rewrite E, purge_truthy; auto using visitor_id_truthy.
Qed.

Lemma X10_visitor_id_witness :
  is_visitor_id (get "_id" (run [] hashed_event)) = true
  /\ getClientIdHash [("client_id", VStr "ba7816bf8f01cfea")] = Some (VStr "ba7816bf8f01cfea")
  /\ ~ In "_id" (keys (run [] [])).
Proof.
  destruct X10_visitor_id_shape as [Hhash Hfinal].
  split; [|split].
  - destruct (Hfinal [] hashed_event (run [] hashed_event) eq_refl eq_refl) as [Hn|Hs];
      [discriminate | | exact Hs].
    exfalso. apply Hn. vm_compute. tauto.
  - assert (getClientIdHash hashed_event = Some (VStr "ba7816bf8f01cfea")) as Hh
      by (vm_compute; reflexivity).
    destruct (Hhash hashed_event _ Hh) as [_ Hagain].
    specialize (Hagain ltac:(discriminate)). vm_compute in Hagain. vm_compute. exact Hagain.
  - destruct (Hfinal [] [] (run [] []) eq_refl eq_refl) as [Hn|Hs];
      [discriminate | exact Hn | vm_compute in Hs; discriminate Hs].
Defined.

(** ** When the script raises *)

(** X11: on inputs of the expected types no step up to the parameter set
    raises: when the search categories, if set, are a string, the client id,
    if it is consulted, is a string, and each of the four tables is unset or
    an array of rows none of which is null or undefined, the script builds
    the parameter set.  Rows need not be objects, and an unset table may be
    any falsy value. *)
Theorem X11_well_typed_inputs_run :
  forall data eventData,
    well_typed data eventData = true ->
    exists body, requestBody data eventData = Some body.
Proof.
  intros data eventData H. exact (requestBody_total data eventData H).
Qed.

Lemma X11_well_typed_witness :
  (exists body, requestBody tables_data tables_event = Some body)
  /\ exists body,
       requestBody
         [ ("_id", VStr "visitor"); ("search_cats", VStr EmptyString);
           ("custom_dims", VArr [VNum (Int 5); VStr "row"]); ("cvars_event", VNum (Int 0));
           ("additionalParameters", VNull) ]
         [ ("client_id", VNum (Int 7)) ]
       = Some body.
Proof.
  split; apply X11_well_typed_inputs_run; reflexivity.
Defined.

Lemma forEach_non_array {S : Type} (v : value) (step : S -> value -> option S) (s : S) :
  getType v <> "array" -> forEach v step s = None.
Proof. destruct v; simpl; auto. intros H. now contradiction H. Qed.

Lemma uiParamMap_raises_on_table (data eventData : obj) :
  (truthy (get "custom_dims" data) = true /\ getType (get "custom_dims" data) <> "array")
  \/ (truthy (get "additionalParameters" data) = true
      /\ getType (get "additionalParameters" data) <> "array") ->
  uiParamMap data eventData = None.
Proof.
  intros H. unfold uiParamMap, bind.
  destruct (uiParamMap_literal data eventData) as [lit|]; auto.
  destruct H as [[Ht Ha]|[Ht Ha]].
  - unfold customDims. now rewrite (or_else_truthy _ _ Ht), forEach_non_array.
  - destruct (customDims data _); auto.
    destruct (cvarParam (get "cvars_event" data) _); auto.
    destruct (cvarParam (get "cvars_session" data) _); auto.
    unfold additionalParameters. now rewrite (or_else_truthy _ _ Ht), forEach_non_array.
Qed.

(** X12: inputs of the wrong type abort the script before it logs or sends
    anything: search categories that are set but not a string (a number, a
    list), or a custom dimension or Additional Parameters table that is set
    but not an array, or a row of such a table that is null, leave the
    invocation without a parameter set and without any action, so neither
    success nor failure is signalled. *)
Theorem X12_ill_typed_inputs_abort :
  forall data eventData,
    (truthy (get "search_cats" data) = true /\ getType (get "search_cats" data) <> "string")
    \/ (truthy (get "custom_dims" data) = true /\ getType (get "custom_dims" data) <> "array")
    \/ (truthy (get "additionalParameters" data) = true
        /\ getType (get "additionalParameters" data) <> "array")
    \/ In VNull (rows data "additionalParameters") ->
    requestBody data eventData = None
    /\ forall containerVersion traceHeader r,
         invoke data eventData containerVersion traceHeader r = None.
Proof.
  intros data eventData H.
  assert (uiParamMap data eventData = None) as Hui.
  { destruct H as [[Ht Hs]|[H|[H|H]]].
    - unfold uiParamMap, uiParamMap_literal, bind. rewrite Ht.
      destruct (get "search_cats" data); try reflexivity. now contradiction Hs.
    - apply uiParamMap_raises_on_table. auto.
    - apply uiParamMap_raises_on_table. auto.
    - destruct (uiParamMap data eventData) as [ui|] eqn:Hui; auto. exfalso.
      destruct (uiParamMap_stages _ _ _ Hui) as (lit & ui1 & cv & scv & _ & _ & _ & _ & Ha).
      apply additionalParameters_rows in Ha.
      destruct (in_split _ _ H) as [before [after Hrows]]. rewrite Hrows in Ha.
      apply loopM_app_any in Ha. destruct Ha as [m [_ Ha]]. discriminate Ha. }
  assert (requestBody data eventData = None) as Hb.
  { unfold requestBody, bind. now rewrite Hui. }
  split; auto. intros. unfold invoke, bind. now rewrite Hb.
Qed.

Lemma X12_ill_typed_witness :
  requestBody [("search_cats", VNum (Int 5))] [] = None
  /\ invoke [("custom_dims", VStr "3=gold")] [] VUndefined VUndefined (Response 200 [] VUndefined)
     = None.
Proof.
  split.
  - apply (X12_ill_typed_inputs_abort [("search_cats", VNum (Int 5))] []).
    left. split; [reflexivity | discriminate].
  - apply (X12_ill_typed_inputs_abort [("custom_dims", VStr "3=gold")] []).
    right. left. split; [reflexivity | discriminate].
Defined.

(** ** The converter: dimensions and shape *)

(** X13: the dimension map of a converted item holds, for every property of
    the item whose name starts with [dimension], the property's value under
    the rest of the name, and holds nothing else: [dimension7] arrives as
    [7], a property without the prefix does not arrive. *)
Theorem X13_item_dimension_map :
  forall (o : obj),
    (forall key, In key (keys o) -> take 9 key = "dimension" ->
       get (drop 9 key) (item_dimensions (VObj o)) = get key o)
    /\ (forall k, In k (keys (item_dimensions (VObj o)))
                  <-> In ("dimension" ++ k)%string (keys o)).
Proof.
  intros o. unfold item_dimensions, convertItem. cbn [object_keys].
  pose proof (fun t x => eq_refl :
    (fun acc cur => if String.eqb (take 9 cur) "dimension"
                    then set (drop 9 cur) (prop (VObj o) cur) acc else acc) t x
    = if (fun cur => String.eqb (take 9 cur) "dimension") x
      then set (drop 9 x) ((fun cur => prop (VObj o) cur) x) t else t) as Hstep.
  split.
  - intros key Hin Hp.
    apply (loop_get_written _ _ _ _ Hstep).
    + exists key. rewrite Hp. auto.
    + intros x Hx Hc Hk. apply String.eqb_eq in Hc.
      rewrite (take_drop "dimension" x Hc), (take_drop "dimension" key Hp).
      cbn [String.length]. now rewrite Hk.
  - intros k. rewrite (loop_keys _ _ _ _ Hstep). split.
    + intros [[]|[x [Hx [Hc Hk]]]]. apply String.eqb_eq in Hc.
      rewrite (take_drop "dimension" x Hc) in Hx. cbn [String.length] in Hx. now rewrite Hk in Hx.
    + intros Hin. right. exists ("dimension" ++ k)%string. repeat split; auto.
      rewrite take_dimension. reflexivity.
Qed.

Lemma X13_item_dimension_witness :
  get "7" (item_dimensions (VObj [("item_id", VStr "a"); ("dimension7", VStr "blue")]))
  = VStr "blue"
  /\ ~ In "item_id" (keys (item_dimensions
                             (VObj [("item_id", VStr "a"); ("dimension7", VStr "blue")]))).
Proof.
  destruct (X13_item_dimension_map [("item_id", VStr "a"); ("dimension7", VStr "blue")])
    as [Hget Hkeys].
  split.
  - apply (Hget "dimension7"); [simpl; auto | reflexivity].
  - intros Hin. apply (proj1 (Hkeys "item_id")) in Hin. simpl in Hin.
    intuition discriminate.
Defined.

Lemma filter_Forall {A : Type} (p : A -> bool) (l : list A) :
  Forall (fun x => p x = true) (filter p l).
Proof.
  induction l as [|x l IH]; simpl; [constructor|].
  destruct (p x) eqn:E; auto.
Qed.

Lemma filter_shorter {A : Type} (p : A -> bool) (l : list A) :
  (List.length (filter p l) <= List.length l)%nat.
Proof. induction l as [|x l IH]; simpl; [lia|]. destruct (p x); simpl; lia. Qed.

Lemma convertItem_is_product (item : value) : is_product (convertItem item).
Proof.
  unfold is_product, convertItem. do 8 eexists. split; [reflexivity|]. split.
  - apply filter_Forall.
  - etransitivity; [apply filter_shorter | simpl; lia].
Qed.

(** X14: the converter gives [undefined] or an array of product arrays, one
    per object entry of the input and in the order of the input, so never
    more than the input has entries; every product array has the eight
    positions, a string id and at most five category levels, all of them
    truthy; converting a list and a longer list that continues it agree on
    the common part. *)
Theorem X14_converter_shape :
  (forall v,
     convertEcommerce v = VUndefined
     \/ exists products,
          convertEcommerce v = VArr products
          /\ (List.length products <= List.length (elements v))%nat
          /\ Forall is_product products)
  /\ (forall items more,
        elements (convertEcommerce (VArr (items ++ more)))
        = (elements (convertEcommerce (VArr items))
           ++ elements (convertEcommerce (VArr more)))%list)
  /\ (forall items,
        List.length (elements (convertEcommerce (VArr items)))
        = List.length (filter is_object items)).
Proof.
  split; [|split].
  - intros v. unfold convertEcommerce.
    destruct (String.eqb (getType v) "array"); cbn [negb]; [right | now left].
    eexists. split; [reflexivity|]. split.
    + rewrite length_map. apply filter_shorter.
    + apply Forall_map. apply Forall_forall. intros item _. apply convertItem_is_product.
  - intros items more. rewrite !convertEcommerce_array. cbn [elements].
    now rewrite filter_app, map_app.
  - intros items. rewrite convertEcommerce_array. cbn [elements]. apply length_map.
Qed.

(** ** The query string *)

Lemma take_append (a b : string) (n : nat) :
  take (String.length a + n) (a ++ b) = (a ++ take n b)%string.
Proof.
  unfold take. induction a as [|x a IH]; simpl; [reflexivity|]. now rewrite IH.
Qed.

Lemma take_whole (a : string) : take (String.length a) a = a.
Proof. unfold take. induction a as [|x a IH]; simpl; [reflexivity|]. now rewrite IH. Qed.

Lemma postBody_loop (rb : obj) (ks : list string) (acc : string) :
  fold_left (fun acc cur => acc ++ cur ++ "=" ++ encodeUriComponent (get cur rb) ++ "&")%string
            ks acc
  = (acc ++ pairs_text rb ks)%string.
Proof.
  revert acc. induction ks as [|k ks IH]; cbn [fold_left pairs_text]; intros acc.
  - now rewrite append_nil_r.
  - rewrite IH. unfold pair_text. rewrite !append_assoc. reflexivity.
Qed.

Lemma pairs_text_cut (rb : obj) (ks : list string) :
  take (String.length (pairs_text rb ks) - 1) (pairs_text rb ks)
  = join "&" (map (pair_text rb) ks).
Proof.
  induction ks as [|k ks IH]; [reflexivity|].
  cbn [pairs_text map]. destruct ks as [|k' ks].
  - cbn [pairs_text join map]. change ("&" ++ EmptyString)%string with "&".
    rewrite length_append. cbn [String.length].
    replace (String.length (pair_text rb k) + 1 - 1)%nat
      with (String.length (pair_text rb k) + 0)%nat by lia.
    rewrite take_append. unfold take. simpl. apply append_nil_r.
  - remember (k' :: ks) as rest eqn:Hrest.
    assert (join "&" (pair_text rb k :: map (pair_text rb) rest)
            = (pair_text rb k ++ "&" ++ join "&" (map (pair_text rb) rest))%string) as ->.
    { rewrite Hrest. reflexivity. }
    rewrite <- IH.
    assert (1 <= String.length (pairs_text rb rest))%nat as Hlen.
    { rewrite Hrest. cbn [pairs_text]. rewrite !length_append. simpl. lia. }
    rewrite <- append_assoc, length_append.
    replace (String.length (pair_text rb k ++ "&") + String.length (pairs_text rb rest) - 1)%nat
      with (String.length (pair_text rb k ++ "&") + (String.length (pairs_text rb rest) - 1))%nat
      by lia.
    rewrite take_append. now rewrite append_assoc.
Qed.

(** X15: the query string is the pairs [key=value] of the parameter set, in
    the order of its keys, joined by [&]: the cut of the last character
    removes exactly the separator that follows the last pair, and an empty
    parameter set gives the empty string. *)
Theorem X15_query_string_is_joined_pairs :
  forall requestBody : obj,
    postBody requestBody = join "&" (map (pair_text requestBody) (keys requestBody)).
Proof.
  intros rb. unfold postBody. rewrite postBody_loop. cbn [append]. apply pairs_text_cut.
Qed.

(** ** Logging and the order of the actions *)

Lemma isLoggingEnabled_cases (data : obj) (containerVersion : value) :
  isLoggingEnabled data containerVersion
  = if negb (truthy (get "logType" data)) then isDebug containerVersion
    else if is_str (get "logType" data) "no" then false
    else if is_str (get "logType" data) "debug" then isDebug containerVersion
    else is_str (get "logType" data) "always".
Proof. reflexivity. Qed.

Lemma logs_of_callback (logging : bool) (traceId : value) (rb : obj) (r : response) :
  filter is_log (onResponse logging traceId rb r)
  = if logging then [logResponse traceId rb r] else [].
Proof.
  unfold onResponse. destruct logging, (statusCode r <? 400); reflexivity.
Qed.

Lemma signals_of_callback (logging : bool) (traceId : value) (rb : obj) (r : response) :
  filter is_signal (onResponse logging traceId rb r)
  = [if statusCode r <? 400 then GtmOnSuccess else GtmOnFailure].
Proof.
  unfold onResponse. destruct logging, (statusCode r <? 400); reflexivity.
Qed.

(** X16: logging follows the log type: [no] never logs, [always] always
    logs, [debug] or no log type logs exactly when the container is in debug
    or preview mode, and any other log type never logs.  An invocation with
    logging on writes two records, one for the request and one for the
    response, both with the [trace-id] request header as trace id; with
    logging off it writes none and performs the same other actions. *)
Theorem X16_logging_follows_log_type :
  forall data containerVersion,
    (is_str (get "logType" data) "no" = true -> isLoggingEnabled data containerVersion = false)
    /\ (is_str (get "logType" data) "always" = true ->
        isLoggingEnabled data containerVersion = true)
    /\ (truthy (get "logType" data) = false \/ is_str (get "logType" data) "debug" = true ->
        isLoggingEnabled data containerVersion = isDebug containerVersion)
    /\ (truthy (get "logType" data) = true ->
        is_str (get "logType" data) "debug" = false ->
        is_str (get "logType" data) "always" = false ->
        isLoggingEnabled data containerVersion = false)
    /\ (forall eventData traceHeader r actions,
          invoke data eventData containerVersion traceHeader r = Some actions ->
          exists body,
            requestBody data eventData = Some body
            /\ filter is_log actions
               = (if isLoggingEnabled data containerVersion
                  then [logRequest data traceHeader body; logResponse traceHeader body r]
                  else [])
            /\ filter (fun a => negb (is_log a)) actions
               = filter (fun a => negb (is_log a))
                   (requestActions data false VUndefined body
                    ++ onResponse false VUndefined body r)%list).
Proof.
  intros data containerVersion. rewrite isLoggingEnabled_cases.
  split; [|split; [|split; [|split]]].
  - intros H. destruct (get "logType" data); try discriminate H.
    simpl in *. destruct (String.eqb_spec s EmptyString); [subst; discriminate|].
    simpl. now rewrite H.
  - intros H. destruct (get "logType" data); try discriminate H.
    simpl in *. apply String.eqb_eq in H. subst s. reflexivity.
  - intros [H|H]; [now rewrite H|].
    destruct (get "logType" data); try discriminate H.
    simpl in *. apply String.eqb_eq in H. subst s. reflexivity.
  - intros Ht Hd Ha. rewrite Ht, Hd, Ha. cbn [negb]. now destruct (is_str _ "no").
  - intros eventData traceHeader r actions H. unfold invoke, bind in H.
    destruct (requestBody data eventData) as [body|]; [|discriminate].
    injection H as <-. exists body. split; auto.
    rewrite <- isLoggingEnabled_cases.
    unfold TRACE_ID, LOGGING_ENABLED, requestActions.
    rewrite !filter_app, logs_of_callback.
    destruct (isLoggingEnabled data containerVersion); split; reflexivity.
Qed.

Lemma X16_logging_witness :
  isLoggingEnabled [("logType", VStr "no")] (VObj [("debugMode", VBool true)]) = false
  /\ isLoggingEnabled [("logType", VStr "always")] VUndefined = true
  /\ isLoggingEnabled [] (VObj [("previewMode", VBool true)]) = true
  /\ isLoggingEnabled [("logType", VStr "verbose")] (VObj [("debugMode", VBool true)]) = false.
Proof.
  split; [|split; [|split]].
  - destruct (X16_logging_follows_log_type [("logType", VStr "no")]
                (VObj [("debugMode", VBool true)])) as (H & _).
    apply H. reflexivity.
  - destruct (X16_logging_follows_log_type [("logType", VStr "always")] VUndefined)
      as (_ & H & _).
    apply H. reflexivity.
  - destruct (X16_logging_follows_log_type [] (VObj [("previewMode", VBool true)]))
      as (_ & _ & H & _).
    rewrite H; [reflexivity | now left].
  - destruct (X16_logging_follows_log_type [("logType", VStr "verbose")]
                (VObj [("debugMode", VBool true)])) as (_ & _ & _ & H & _).
    apply H; reflexivity.
Defined.

(** X17: an invocation that runs to its end makes its request first and
    signals last: its actions end with the response status, the
    [cache-control] header and one signal, success or failure and never
    both; with logging off these three and the request are all it does. *)
Theorem X17_one_signal_last :
  forall data eventData containerVersion traceHeader r actions,
    invoke data eventData containerVersion traceHeader r = Some actions ->
    List.length (filter is_signal actions) = 1%nat
    /\ (exists before,
          actions
          = (before ++ [ SetResponseStatus (statusCode r);
                         SetResponseHeader "cache-control" (get "cache-control" (headers r));
                         if statusCode r <? 400 then GtmOnSuccess else GtmOnFailure ])%list
          /\ filter is_signal before = []
          /\ List.length (requests before) = 1%nat)
    /\ (isLoggingEnabled data containerVersion = false -> List.length actions = 4%nat).
Proof.
  intros data eventData containerVersion traceHeader r actions H.
  unfold invoke, bind in H.
  destruct (requestBody data eventData) as [body|]; [|discriminate].
  injection H as <-. unfold requestActions, onResponse, TRACE_ID, LOGGING_ENABLED.
  destruct (isLoggingEnabled data containerVersion); (split; [|split]).
  - rewrite !filter_app. now destruct (statusCode r <? 400).
  - eexists. rewrite !app_assoc. split; [reflexivity|]. split; reflexivity.
  - discriminate.
  - rewrite !filter_app. now destruct (statusCode r <? 400).
  - eexists. rewrite !app_assoc. split; [reflexivity|]. split; reflexivity.
  - reflexivity.
Qed.

Lemma X17_one_signal_witness :
  match invoke [] [] VUndefined VUndefined (Response 503 [] VUndefined) with
  | Some actions => filter is_signal actions = [GtmOnFailure] /\ List.length actions = 4%nat
  | None => False
  end.
Proof.
  destruct (invoke [] [] VUndefined VUndefined (Response 503 [] VUndefined)) as [actions|] eqn:E;
    [|discriminate E].
  destruct (X17_one_signal_last _ _ _ _ _ _ E) as (_ & [before [-> [Hb _]]] & Hlen).
  split; [|apply Hlen; reflexivity].
  rewrite filter_app, Hb. reflexivity.
Defined.

(** ** The search categories *)

Lemma split_on_length (c : ascii) (s : string) :
  List.length (split_on c s) = S (count_char c s).
Proof.
  induction s as [|a s IH]; [reflexivity|]. cbn [split_on count_char].
  destruct (Ascii.eqb a c); cbn [List.length]; [now rewrite IH|].
  destruct (split_on c s) as [|w ws]; [discriminate IH | exact IH].
Qed.

Lemma split_on_no_separator (c : ascii) (s : string) :
  Forall (fun w => count_char c w = O) (split_on c s).
Proof.
  induction s as [|a s IH]; [repeat constructor|]. cbn [split_on].
  destruct (Ascii.eqb a c) eqn:E; [constructor; auto|].
  destruct (split_on c s) as [|w ws]; constructor.
  - simpl. now rewrite E.
  - constructor.
  - inversion IH; subst. simpl. now rewrite E.
  - now inversion IH.
Qed.

Lemma trim_start_first (s : string) : first_char_ok (trim_start s) = true.
Proof.
  induction s as [|a s IH]; [reflexivity|]. cbn [trim_start].
  destruct (is_space a) eqn:E; [exact IH | simpl; now rewrite E].
Qed.

Lemma trim_end_first (s : string) : first_char_ok s = true -> first_char_ok (trim_end s) = true.
Proof.
  destruct s as [|a s]; [reflexivity|]. cbn [trim_end first_char_ok]. intros H.
  destruct (trim_end s); [|exact H].
  destruct (is_space a) eqn:E; [reflexivity | simpl; now rewrite E].
Qed.

Lemma trim_end_last (s : string) : last_char_ok (trim_end s) = true.
Proof.
  induction s as [|a s IH]; [reflexivity|]. cbn [trim_end].
  destruct (trim_end s) as [|b t]; [|exact IH].
  destruct (is_space a) eqn:E; [reflexivity | simpl; now rewrite E].
Qed.

Lemma trim_is_trimmed (s : string) : trimmed (trim s) = true.
Proof.
  unfold trimmed, trim. now rewrite (trim_end_first _ (trim_start_first s)), trim_end_last.
Qed.

Lemma trim_start_count (c : ascii) (s : string) :
  (count_char c (trim_start s) <= count_char c s)%nat.
Proof.
  induction s as [|a s IH]; [auto|]. cbn [trim_start].
  destruct (is_space a); [simpl; lia | lia].
Qed.

Lemma trim_end_count (c : ascii) (s : string) :
  (count_char c (trim_end s) <= count_char c s)%nat.
Proof.
  induction s as [|a s IH]; [auto|]. cbn [trim_end].
  destruct (trim_end s) as [|b t].
  - destruct (is_space a); simpl in *; lia.
  - cbn [count_char] in *. lia.
Qed.

Lemma trim_count (c : ascii) (s : string) : (count_char c (trim s) <= count_char c s)%nat.
Proof.
  unfold trim. etransitivity; [apply trim_end_count | apply trim_start_count].
Qed.

(** X18: the list made of a string of categories has one entry more than
    the string has commas, in the order of the string; no entry contains a
    comma or begins or ends with white space; an empty part gives an empty
    entry; a value that is not a string makes the function raise. *)
Theorem X18_categories_split_and_trimmed :
  (forall s,
     exists parts,
       stringToArrayAndTrim (VStr s) = Some (VArr (map VStr parts))
       /\ parts = map trim (split_on "," s)
       /\ List.length parts = S (count_char "," s)
       /\ Forall (fun p => trimmed p = true /\ count_char "," p = O) parts)
  /\ (forall v, getType v <> "string" -> stringToArrayAndTrim v = None).
Proof.
  split.
  - intros s. exists (map trim (split_on "," s)). repeat split.
    + cbn [stringToArrayAndTrim]. now rewrite map_map.
    + now rewrite length_map, split_on_length.
    + apply Forall_map. eapply Forall_impl; [|apply (split_on_no_separator "," s)].
      intros w Hw. split; [apply trim_is_trimmed|].
      cbv beta in Hw. pose proof (trim_count "," w) as Hle. rewrite Hw in Hle.
      now apply Nat.le_0_r.
  - intros v H. destruct v; try reflexivity. now contradiction H.
Qed.

Lemma X18_categories_witness :
  stringToArrayAndTrim (VNum (Int 5)) = None
  /\ stringToArrayAndTrim (VArr [VStr "shoes"]) = None.
Proof.
  destruct X18_categories_split_and_trimmed as [_ H].
  split; apply H; discriminate.
Defined.

(** ** Parameters that are JSON text *)

Lemma JSON_stringify_undefined (v : value) : JSON_stringify v = VUndefined <-> v = VUndefined.
Proof.
  unfold JSON_stringify. destruct v as [| |[]|n|s|l|o]; simpl; split; congruence.
Qed.

Lemma JSON_stringify_shape (v : value) :
  JSON_stringify v = VUndefined \/ is_nonempty_string (JSON_stringify v) = true.
Proof.
  destruct (JSON_stringify_truthy v) as [_ H].
  destruct (is_nonempty_string (JSON_stringify v)); auto.
Qed.

Lemma purge_JSON (v : value) : purge (JSON_stringify v) = JSON_stringify v.
Proof. unfold JSON_stringify, purge. now destruct (stringify v). Qed.

Lemma cvarParam_is_JSON (cvars inherited cv : value) :
  cvarParam cvars inherited = Some cv -> exists x, cv = JSON_stringify x.
Proof.
  unfold cvarParam, bind. destruct (truthy _).
  - destruct (forEach cvars _ _) as [acc|]; [|discriminate]. intros H. injection H as <-. eauto.
  - intros H. injection H as <-. eauto.
Qed.

Lemma literal_JSON (data eventData lit : obj) :
  uiParamMap_literal data eventData = Some lit ->
  (exists x, get "search_cats" lit = JSON_stringify x)
  /\ (get "ec_products" lit = VUndefined \/ exists x, get "ec_products" lit = JSON_stringify x).
Proof.
  intros H. destruct (literal_inv _ _ _ H) as (sc & id & _ & _ & Gsc & _). split; [eauto|].
  rewrite (literal_get_ec_products _ _ _ H), or_else_first_serialized.
  unfold first_serialized. destruct (find _ _) as [c|]; eauto.
Qed.

(** X19: the parameters that carry JSON text, [search_cats], [cvar], [_cvar]
    and [ec_products], are in the final parameter set either absent or a
    non-empty string, never the empty string; the serialization is absent
    only for an undefined source, so a source that is null is sent as the
    text [null].  This holds unless an Additional Parameters row rewrites
    the key. *)
Theorem X19_json_parameters :
  (forall v, JSON_stringify v = VUndefined <-> v = VUndefined)
  /\ (forall data eventData body k,
        requestBody data eventData = Some body ->
        In k json_keys -> overridden data k = false ->
        (~ In k (keys body) /\ get k body = VUndefined)
        \/ (In k (keys body) /\ is_nonempty_string (get k body) = true)).
Proof.
  split; [apply JSON_stringify_undefined|].
  intros data eventData body k H Hk Hov.
  assert (exists x, get k body = JSON_stringify x \/ get k body = VUndefined) as [x Hx].
  { unfold json_keys in Hk. simpl in Hk. destruct Hk as [<-|[<-|[<-|[<-|[]]]]].
    - destruct (final_literal _ _ _ "search_cats" H) as [lit [Hlit ->]];
        [unfold literal_keys; simpl; tauto | auto |].
      destruct (literal_JSON _ _ _ Hlit) as [[x ->] _]. exists x. left. apply purge_JSON.
    - destruct (final_plain _ _ _ "cvar" H Hov) as (lit & cv & scv & _ & Hcv & _ & ->);
        [intros E; vm_compute in E; discriminate | right; unfold late_keys; simpl; tauto |].
      rewrite get_set_other by discriminate. rewrite get_set_same.
      destruct (cvarParam_is_JSON _ _ _ Hcv) as [x ->]. exists x. left. apply purge_JSON.
    - destruct (final_plain _ _ _ "_cvar" H Hov) as (lit & cv & scv & _ & _ & Hscv & ->);
        [intros E; vm_compute in E; discriminate | right; unfold late_keys; simpl; tauto |].
      rewrite get_set_same.
      destruct (cvarParam_is_JSON _ _ _ Hscv) as [x ->]. exists x. left. apply purge_JSON.
    - destruct (final_literal _ _ _ "ec_products" H) as [lit [Hlit ->]];
        [unfold literal_keys; simpl; tauto | auto |].
      destruct (literal_JSON _ _ _ Hlit) as [_ [-> | [x ->]]];
        [exists VUndefined; now right | exists x; left; apply purge_JSON]. }
  assert (get k body = VUndefined \/ is_nonempty_string (get k body) = true) as [E|E].
  { destruct Hx as [-> | ->]; [apply JSON_stringify_shape | now left]. }
  - left. split; auto. intros Hin. apply (requestBody_defined _ _ _ _ H) in Hin.
    rewrite E in Hin. discriminate.
  - right. split; auto. apply get_present. destruct (get k body); try discriminate E. reflexivity.
Qed.

Lemma X19_json_parameters_witness :
  get "cvar" (run [] [("x-pp-cvar", VNull)]) = VStr "null"
  /\ ~ In "search_cats" (keys (run [] [("x-pp-cvar", VNull)])).
Proof.
  destruct X19_json_parameters as [_ H]. split.
  - destruct (H [] [("x-pp-cvar", VNull)] (run [] [("x-pp-cvar", VNull)]) "cvar" eq_refl)
      as [[_ E]|[_ E]]; [unfold json_keys; simpl; tauto | reflexivity | | ].
    + vm_compute in E. discriminate E.
    + reflexivity.
  - destruct (H [] [("x-pp-cvar", VNull)] (run [] [("x-pp-cvar", VNull)]) "search_cats" eq_refl)
      as [[Hn _]|[_ E]]; [unfold json_keys; simpl; tauto | reflexivity | exact Hn | ].
    vm_compute in E. discriminate E.
Defined.
